(** * Identity reconciliation: the /identify service of src/index.ts

    A shallow embedding of [identifyCustomer] and of the POST /identify
    handler, over a model of the contacts table of database.sql, followed by
    the properties of the resolution algorithm.

    Conventions of the model.
    - A JavaScript value of type [string | undefined] or [number | undefined]
      is an [option]; [None] is [undefined].  Phone numbers are the integers
      among the JavaScript numbers, written in decimal by [toString]; this is
      what [Number.prototype.toString] gives for the safe integers (below
      2^53 in absolute value).  The proofs use of [toString] only that it is
      one function of the number, the same wherever the program calls it,
      and that its result is not empty.
    - A row handed back by pg is an object keyed by the column names that
      PostgreSQL reports.  database.sql declares the columns without quotes,
      so PostgreSQL folds them to lower case: the phone is under the key
      [phonenumber].  The program reads [c.id] and [c.email], keys that
      exist, and [c.phoneNumber], a key that does not: that read gives
      [undefined] ([read_phoneNumber]).
    - Time stamps are integers; CURRENT_TIMESTAMP is the time [now] at which
      the transaction of the call starts.
    - [ORDER BY createdAt ASC] is a stable sort of the rows in table order
      (PostgreSQL leaves the order of equal keys open).
    - A statement sent to the store can fail for reasons the program does not
      control (connection loss, a constraint of the schema such as the widths
      VARCHAR(255) of [email] and VARCHAR(20) of [phoneNumber]); an oracle
      [faults] says which of the statements issued by a call fail.  The
      properties stated for every oracle cover every run of the program; a
      run under [no_faults] is a run of the real store when the values to
      insert fit their columns ([fits_columns]). *)

From Stdlib Require Import List ZArith String Bool Lia Sorted Permutation.
From Stdlib Require Import DecimalString.
Import ListNotations.

Local Open Scope string_scope.
Local Open Scope list_scope.
Local Open Scope Z_scope.

(** ** Data model (interfaces of src/index.ts, schema of database.sql) *)

Inductive LinkPrecedence : Type := primary | secondary.

(** The fields live in a module of their own so that they can still be named
    where a parameter called [email] or [phoneNumber] is in scope. *)
Module ContactRow.

Record Contact : Type := mkContact {
  id : Z;
  phoneNumber : option string;
  email : option string;
  linkedId : option Z;
  linkPrecedence : LinkPrecedence;
  createdAt : Z;
  updatedAt : Z;
  deletedAt : option Z
}.

End ContactRow.
Export ContactRow.

(** What reading a property of a row, or an element of a response list, can
    be. *)
Inductive js_value : Type :=
| js_undefined
| js_null
| js_string (s : string).

(** [phoneNumbers] holds what the program puts there: strings, or
    [undefined] (which JSON.stringify writes as null). *)
Record ContactView : Type := mkView {
  primaryContactId : Z;
  emails : list string;
  phoneNumbers : list js_value;
  secondaryContactIds : list Z
}.

(** [IdentifyResponse] is [{ contact: ... }]; the wrapper carries nothing. *)
Definition IdentifyResponse : Type := ContactView.

(** ** JavaScript values *)

(** Truthiness of [email] and of [phoneNumber]. *)
Definition truthy_string (s : option string) : bool :=
  match s with
  | Some EmptyString => false
  | Some _ => true
  | None => false
  end.

Definition truthy_number (n : option Z) : bool :=
  match n with
  | Some 0 => false
  | Some _ => true
  | None => false
  end.

(** [x || null] on a string. *)
Definition or_null (s : option string) : option string :=
  if truthy_string s then s else None.

(** [Number.prototype.toString] on an integer. *)
Definition toString (n : Z) : string := NilZero.string_of_int (Z.to_int n).

(** [phoneNumber?.toString()] and [phoneNumber?.toString() || null]. *)
Definition phone_string (phoneNumber : option Z) : option string :=
  option_map toString phoneNumber.

Definition phone_param (phoneNumber : option Z) : option string :=
  or_null (phone_string phoneNumber).

(** [a === b] for a column [a], a string or [null], and a request value [b],
    a string or [undefined]. *)
Definition strict_eq (a b : option string) : bool :=
  match a, b with
  | Some x, Some y => String.eqb x y
  | _, _ => false
  end.

(** [a === b] on two values. *)
Definition js_value_eqb (a b : js_value) : bool :=
  match a, b with
  | js_undefined, js_undefined => true
  | js_null, js_null => true
  | js_string x, js_string y => String.eqb x y
  | _, _ => false
  end.

(** A request value, a string or [undefined], as a value. *)
Definition request_value (o : option string) : js_value :=
  match o with
  | Some s => js_string s
  | None => js_undefined
  end.

(** [c.phoneNumber] on a row handed back by pg: the row has the key
    [phonenumber], not [phoneNumber]. *)
Definition read_phoneNumber (c : Contact) : js_value := js_undefined.

(** [[...new Set(xs)]] on values: first occurrences, in order. *)
Fixpoint dedup_values_from (seen : list js_value) (xs : list js_value)
    : list js_value :=
  match xs with
  | [] => []
  | x :: rest =>
      if existsb (js_value_eqb x) seen then dedup_values_from seen rest
      else x :: dedup_values_from (x :: seen) rest
  end.

Definition dedup_values (xs : list js_value) : list js_value :=
  dedup_values_from [] xs.

(** [[...new Set(xs)]]: first occurrences, in order. *)
Fixpoint dedup_from (seen : list string) (xs : list string) : list string :=
  match xs with
  | [] => []
  | x :: rest =>
      if existsb (String.eqb x) seen then dedup_from seen rest
      else x :: dedup_from (x :: seen) rest
  end.

Definition dedup (xs : list string) : list string := dedup_from [] xs.

(** [.filter(c => c.f !== null).map(c => c.f)] *)
Fixpoint non_null (f : Contact -> option string) (cs : list Contact) : list string :=
  match cs with
  | [] => []
  | c :: rest =>
      match f c with
      | Some s => s :: non_null f rest
      | None => non_null f rest
      end
  end.

(** ** The store *)

(** What persists between calls: the committed rows of [contacts], in
    insertion order, and the next value of the SERIAL sequence of [id]. *)
Record Db : Type := mkDb {
  table : list Contact;
  seq : Z
}.

Definition empty_db : Db := mkDb [] 1.

(** SQL [col = $n]: unknown, hence not selected, when either side is NULL. *)
Definition sql_eq (col param : option string) : bool :=
  match col, param with
  | Some x, Some y => String.eqb x y
  | _, _ => false
  end.

Definition is_null {A : Type} (x : option A) : bool :=
  match x with
  | None => true
  | Some _ => false
  end.

(** [ORDER BY createdAt ASC] *)
Fixpoint insert_by_createdAt (c : Contact) (cs : list Contact) : list Contact :=
  match cs with
  | [] => [c]
  | d :: rest =>
      if createdAt c <=? createdAt d then c :: d :: rest
      else d :: insert_by_createdAt c rest
  end.

Fixpoint order_by_createdAt (cs : list Contact) : list Contact :=
  match cs with
  | [] => []
  | c :: rest => insert_by_createdAt c (order_by_createdAt rest)
  end.

(** The search query of step 1. *)
Definition search_where (p_email p_phone : option string) (c : Contact) : bool :=
  (sql_eq (email c) p_email || sql_eq (phoneNumber c) p_phone) && is_null (deletedAt c).

Definition search (p_email p_phone : option string) (rows : list Contact) : list Contact :=
  order_by_createdAt (filter (search_where p_email p_phone) rows).

(** The query of step 3 for the contacts linked to one id. *)
Definition linked_where (pid : Z) (c : Contact) : bool :=
  match linkedId c with
  | Some k => (k =? pid) && is_null (deletedAt c)
  | None => false
  end.

Definition get_linked (pid : Z) (rows : list Contact) : list Contact :=
  order_by_createdAt (filter (linked_where pid) rows).

(** The row an INSERT of steps 2 and 5 produces. *)
Definition new_row (now : Z) (nid : Z) (p_email p_phone : option string)
    (link : option Z) (prec : LinkPrecedence) : Contact :=
  mkContact nid p_phone p_email link prec now now None.

(** ** One connection, and statements that can fail *)

(** The client checked out of the pool: the committed rows, the rows as the
    open transaction sees them (if one is open), the sequence, and the number
    of statements issued so far. *)
Record Conn : Type := mkConn {
  committed : list Contact;
  pending : option (list Contact);
  nextval : Z;
  issued : nat
}.

Definition visible (c : Conn) : list Contact :=
  match pending c with
  | Some rows => rows
  | None => committed c
  end.

Inductive outcome (A : Type) : Type :=
| Ok (a : A)
| Throw (stmt : nat).
Arguments Ok {A} a.
Arguments Throw {A} stmt.

Definition M (A : Type) : Type := Conn -> outcome A * Conn.

Definition ret {A : Type} (a : A) : M A := fun c => (Ok a, c).

Definition bind {A B : Type} (m : M A) (k : A -> M B) : M B :=
  fun c =>
    match m c with
    | (Ok a, c') => k a c'
    | (Throw e, c') => (Throw e, c')
    end.

Definition throw {A : Type} (e : nat) : M A := fun c => (Throw e, c).

(** [try { body } catch (error) { handler(error) }] *)
Definition try_catch {A : Type} (body : M A) (handler : nat -> M A) : M A :=
  fun c =>
    match body c with
    | (Ok a, c') => (Ok a, c')
    | (Throw e, c') => handler e c'
    end.

Declare Scope db_scope.
Delimit Scope db_scope with db.
Notation "x <- m ;; k" := (bind m (fun x => k))
  (at level 61, m at next level, right associativity) : db_scope.
Notation "m ;;; k" := (bind m (fun _ => k))
  (at level 61, right associativity) : db_scope.

Section Statements.

(** [faults k] holds when the statement number [k] of the call fails. *)
Variable faults : nat -> bool.

(** A statement that fails has no effect on the rows and rejects with an
    error; the error is named after the statement. *)
Definition statement {A : Type} (run : Conn -> A * Conn) : M A :=
  fun c =>
    let k := issued c in
    let c1 := mkConn (committed c) (pending c) (nextval c) (S k) in
    if faults k then (Throw k, c1)
    else let (a, c2) := run c1 in (Ok a, c2).

(** [pool.connect()] *)
Definition connect : M unit := statement (fun c => (tt, c)).

(** [client.query('BEGIN')] *)
Definition query_begin : M unit :=
  statement (fun c =>
    (tt, mkConn (committed c) (Some (visible c)) (nextval c) (issued c))).

(** [client.query('COMMIT')] *)
Definition query_commit : M unit :=
  statement (fun c =>
    (tt, mkConn (visible c) None (nextval c) (issued c))).

(** [client.query('ROLLBACK')].  PostgreSQL answers a ROLLBACK in whatever
    state the transaction is, so the statement fails only with the connection,
    and the server aborts the transaction of a connection it has lost: answered
    or not, no transaction is left. *)
Definition query_rollback : M unit :=
  fun c =>
    let k := issued c in
    let c1 := mkConn (committed c) None (nextval c) (S k) in
    if faults k then (Throw k, c1) else (Ok tt, c1).

(** A SELECT: [result.rows]. *)
Definition query_select (q : list Contact -> list Contact) : M (list Contact) :=
  statement (fun c => (q (visible c), c)).

(** An INSERT ... RETURNING *: [result.rows[0]].  The sequence is advanced
    outside the transaction, as PostgreSQL does.  The widths of the columns
    are not checked here: the INSERT of a value wider than its column is one
    of the failures the oracle stands for. *)
Definition query_insert (now : Z) (p_email p_phone : option string)
    (link : option Z) (prec : LinkPrecedence) : M Contact :=
  statement (fun c =>
    let r := new_row now (nextval c) p_email p_phone link prec in
    let rows := visible c ++ [r] in
    (r, match pending c with
        | Some _ => mkConn (committed c) (Some rows) (nextval c + 1) (issued c)
        | None => mkConn rows None (nextval c + 1) (issued c)
        end)).

Local Open Scope db_scope.

(** Step 4 of [identifyCustomer]. *)
Definition hasNewEmail (email : option string) (allLinkedContacts : list Contact) : bool :=
  truthy_string email
  && negb (existsb (fun c => strict_eq (ContactRow.email c) email) allLinkedContacts).

Definition hasNewPhone (phoneNumber : option Z) (allLinkedContacts : list Contact) : bool :=
  truthy_number phoneNumber
  && negb (existsb (fun c => js_value_eqb (read_phoneNumber c)
                               (request_value (phone_string phoneNumber)))
             allLinkedContacts).

(** Step 6 of [identifyCustomer]. *)
Definition consolidate (primaryContact : Contact) (allLinkedContacts : list Contact)
    : IdentifyResponse :=
  mkView (id primaryContact)
    (dedup (non_null ContactRow.email allLinkedContacts))
    (dedup_values
       (map read_phoneNumber
          (filter (fun c => negb (js_value_eqb (read_phoneNumber c) js_null))
             allLinkedContacts)))
    (map id (filter (fun c => negb (id c =? id primaryContact)) allLinkedContacts)).

(** The body of the [try] block of [identifyCustomer]. *)
Definition identify_body (now : Z) (email : option string) (phoneNumber : option Z)
    : M IdentifyResponse :=
  query_begin ;;;
  existingContacts <-
    (if truthy_string email || truthy_number phoneNumber
     then query_select (search (or_null email) (phone_param phoneNumber))
     else ret []) ;;
  match existingContacts with
  | [] =>
      newContact <- query_insert now (or_null email) (phone_param phoneNumber)
                      None primary ;;
      query_commit ;;;
      ret (mkView (id newContact)
             (match email with
              | Some e => if truthy_string email then [e] else []
              | None => []
              end)
             (match phoneNumber with
              | Some n => if truthy_number phoneNumber then [js_string (toString n)] else []
              | None => []
              end)
             [])
  | primaryContact :: _ =>
      linked <- query_select (get_linked (id primaryContact)) ;;
      let allLinkedContacts := primaryContact :: linked in
      allLinkedContacts <-
        (if hasNewEmail email allLinkedContacts || hasNewPhone phoneNumber allLinkedContacts
         then
           r <- query_insert now (or_null email) (phone_param phoneNumber)
                  (Some (id primaryContact)) secondary ;;
           ret (allLinkedContacts ++ [r])
         else ret allLinkedContacts) ;;
      query_commit ;;;
      ret (consolidate primaryContact allLinkedContacts)
  end.

(** [identifyCustomer]: connect, run the body, roll back and rethrow on an
    error; [client.release()] then hands the client back as it is. *)
Definition identify_conn (now : Z) (email : option string) (phoneNumber : option Z)
    : M IdentifyResponse :=
  connect ;;;
  try_catch (identify_body now email phoneNumber)
    (fun error => query_rollback ;;; throw error).

(** The result of a call together with the client as [client.release()] hands
    it back to the pool. *)
Definition identify_released (now : Z) (email : option string)
    (phoneNumber : option Z) (db : Db) : outcome IdentifyResponse * Conn :=
  identify_conn now email phoneNumber (mkConn (table db) None (seq db) 0).

Definition identifyCustomer (now : Z) (email : option string) (phoneNumber : option Z)
    (db : Db) : outcome IdentifyResponse * Db :=
  let (r, c) := identify_released now email phoneNumber db in
  (r, mkDb (committed c) (nextval c)).

(** The POST /identify handler. *)
Inductive HttpResponse : Type :=
| Http200 (body : IdentifyResponse)
| Http400
| Http500.

Definition post_identify (now : Z) (email : option string) (phoneNumber : option Z)
    (db : Db) : HttpResponse * Db :=
  if negb (truthy_string email) && negb (truthy_number phoneNumber)
  then (Http400, db)
  else
    match identifyCustomer now email phoneNumber db with
    | (Ok result, db') => (Http200 result, db')
    | (Throw _, db') => (Http500, db')
    end.

End Statements.

(** The oracle of a call in which the store answers every statement. *)
Definition no_faults : nat -> bool := fun _ => false.

(** ** What a call computes when the store answers *)

(** [existingContacts] after step 1. *)
Definition matched (email : option string) (phoneNumber : option Z)
    (rows : list Contact) : list Contact :=
  if truthy_string email || truthy_number phoneNumber
  then search (or_null email) (phone_param phoneNumber) rows
  else [].

(** The response of the branch of step 2. *)
Definition singleton_view (nid : Z) (email : option string) (phoneNumber : option Z)
    : IdentifyResponse :=
  mkView nid
    (match email with
     | Some e => if truthy_string email then [e] else []
     | None => []
     end)
    (match phoneNumber with
     | Some n => if truthy_number phoneNumber then [js_string (toString n)] else []
     | None => []
     end)
    [].

(** The committed effect and the response of a call without faults, read off
    [identify_body]; [identifyCustomer_no_faults] below proves the reading. *)
Definition identify_run (now : Z) (email : option string) (phoneNumber : option Z)
    (db : Db) : IdentifyResponse * Db :=
  match matched email phoneNumber (table db) with
  | [] =>
      let r := new_row now (seq db) (or_null email) (phone_param phoneNumber)
                 None primary in
      (singleton_view (seq db) email phoneNumber,
       mkDb (table db ++ [r]) (seq db + 1))
  | primaryContact :: _ =>
      let allLinkedContacts :=
        primaryContact :: get_linked (id primaryContact) (table db) in
      if hasNewEmail email allLinkedContacts || hasNewPhone phoneNumber allLinkedContacts
      then
        let r := new_row now (seq db) (or_null email) (phone_param phoneNumber)
                   (Some (id primaryContact)) secondary in
        (consolidate primaryContact (allLinkedContacts ++ [r]),
         mkDb (table db ++ [r]) (seq db + 1))
      else (consolidate primaryContact allLinkedContacts, db)
  end.

(** ** Notions the properties are stated with *)

Definition older_or_equal (a b : Contact) : Prop := createdAt a <= createdAt b.

(** Ascending [createdAt]. *)
Definition ascending (cs : list Contact) : Prop := StronglySorted older_or_equal cs.

(** A store as the calls leave it: ids were drawn from the sequence, no time
    stamp lies after [now], and a link points to a row inserted earlier. *)
Definition wf_store (now : Z) (db : Db) : Prop :=
  Forall (fun c =>
            id c < seq db
            /\ createdAt c <= now
            /\ (forall k, linkedId c = Some k -> k < id c))
         (table db).

(** Depth-one forest: every live secondary points at a primary of the table. *)
Definition forest_invariant (rows : list Contact) : Prop :=
  forall c, In c rows -> deletedAt c = None -> linkPrecedence c = secondary ->
    exists p, In p rows /\ linkedId c = Some (id p) /\ linkPrecedence p = primary.

(** The cluster root of a contact, as the specification words it: the contact
    itself if it is primary, else the contact its [linkedId] names. *)
Definition root_id (c : Contact) : Z :=
  match linkPrecedence c, linkedId c with
  | secondary, Some k => k
  | _, _ => id c
  end.

(** The cluster of a root, as the specification words it: the live root and
    the live contacts whose [linkedId] is the root. *)
Definition cluster_of (rid : Z) (rows : list Contact) : list Contact :=
  filter (fun c => ((id c =? rid) || linked_where rid c) && is_null (deletedAt c)) rows.

(** The view lists the cluster of [rows] around its primary [P]: [P] is the
    live primary whose id the view reports, [S] is the live contacts linked to
    [P] in ascending [createdAt], and the three lists are read off [P :: S]. *)
Definition consolidated_view (rows : list Contact) (v : ContactView) : Prop :=
  exists P S,
    In P rows /\ id P = primaryContactId v
    /\ linkPrecedence P = primary /\ deletedAt P = None
    /\ Permutation S (filter (linked_where (id P)) rows)
    /\ ascending S
    /\ emails v = dedup (non_null email (P :: S))
    /\ phoneNumbers v = map js_string (dedup (non_null phoneNumber (P :: S)))
    /\ secondaryContactIds v = map id S.

(** The working contact of a call, when something matched, is a primary. *)
Definition oldest_match_is_primary (email : option string) (phoneNumber : option Z)
    (rows : list Contact) : Prop :=
  match matched email phoneNumber rows with
  | [] => True
  | c :: _ => linkPrecedence c = primary
  end.

(** Nothing live in the table carries the email or the phone of the request. *)
Definition no_match (email : option string) (phoneNumber : option Z)
    (rows : list Contact) : Prop :=
  forall c, In c rows -> deletedAt c = None ->
    (forall e, email = Some e -> ContactRow.email c <> Some e)
    /\ (forall n, phoneNumber = Some n -> ContactRow.phoneNumber c <> Some (toString n)).

(** The one-element list of a present value. *)
Definition present (o : option string) : list string :=
  match o with
  | Some s => [s]
  | None => []
  end.

(** ** Scenarios *)

(** A sequence of successful calls [(now, email, phoneNumber)]. *)
Fixpoint calls (cs : list (Z * option string * option Z)) (db : Db) : Db :=
  match cs with
  | [] => db
  | (now, email, phoneNumber) :: rest =>
      calls rest (snd (identifyCustomer no_faults now email phoneNumber db))
  end.

Definition lorraine : string := "lorraine@hillvalley.edu".
Definition mcfly : string := "mcfly@hillvalley.edu".
Definition doc : string := "doc@fluxkart.com".

(** Two customers that have nothing in common: A = (lorraine, 123456) with
    id 1 and B = (doc, 717171) with id 2, both primary. *)
Definition two_primaries : Db :=
  calls [(10, Some lorraine, Some 123456); (20, Some doc, Some 717171)] empty_db.

(** One customer: the primary 1 = (lorraine, 123456) and its secondary
    2 = (mcfly, 123456). *)
Definition primary_and_secondary : Db :=
  calls [(10, Some lorraine, Some 123456); (20, Some mcfly, Some 123456)] empty_db.

(** One customer with two secondaries: 1 = (lorraine, 123456),
    2 = (mcfly, 123456) and 3 = (lorraine, 555000), both linked to 1. *)
Definition primary_and_two_secondaries : Db :=
  calls [(10, Some lorraine, Some 123456); (20, Some mcfly, Some 123456);
         (30, Some lorraine, Some 555000)] empty_db.

(** One customer: the primary 1 = (lorraine, 123456). *)
Definition one_primary : Db :=
  calls [(10, Some lorraine, Some 123456)] empty_db.

(** A live row with both fields present. *)
Definition row (i : Z) (e p : string) (link : option Z) (prec : LinkPrecedence)
    (t : Z) : Contact :=
  mkContact i (Some p) (Some e) link prec t t None.

(** The oracle under which the sixth statement of a call fails. *)
Definition sixth_fails : nat -> bool := fun k => Nat.eqb k 5.

(** ** Outcomes the properties speak of *)

(** The call creates exactly one contact [N], a primary without link that
    stores the email and the phone of the request (nothing for an absent
    field or an empty email), and answers with the cluster made of [N]. *)
Definition new_customer_outcome (now : Z) (email : option string)
    (phoneNumber : option Z) (db : Db) : Prop :=
  exists N,
    identifyCustomer no_faults now email phoneNumber db =
      (Ok (mkView (id N) (present (ContactRow.email N))
             (map js_string (present (ContactRow.phoneNumber N))) []),
       mkDb (table db ++ [N]) (seq db + 1))
    /\ id N = seq db
    /\ linkPrecedence N = primary /\ linkedId N = None
    /\ (forall e, email = Some e -> e <> "" -> ContactRow.email N = Some e)
    /\ (email = None \/ email = Some "" -> ContactRow.email N = None)
    /\ ContactRow.phoneNumber N = option_map toString phoneNumber
    /\ createdAt N = now /\ deletedAt N = None.

(** A later request is one the handler lets through. *)
Definition accepted (email : option string) (phoneNumber : option Z) : Prop :=
  truthy_string email || truthy_number phoneNumber = true.

(** The values a request would have inserted fit the columns of
    database.sql: [email VARCHAR(255)] and [phoneNumber VARCHAR(20)]. *)
Definition fits_columns (email : option string) (phoneNumber : option Z) : Prop :=
  (forall e, email = Some e -> (String.length e <= 255)%nat)
  /\ (forall n, phoneNumber = Some n -> (String.length (toString n) <= 20)%nat).



(** ** Notions for the further properties of a call *)

(** The contacts a call works with: the oldest matched contact and the live
    contacts linked to it ([allLinkedContacts] before step 5). *)
Definition working_set (email : option string) (phoneNumber : option Z)
    (rows : list Contact) : list Contact :=
  match matched email phoneNumber rows with
  | [] => []
  | p :: _ => p :: get_linked (id p) rows
  end.

(** What makes step 5 insert: the request carries a non-empty email that no
    contact of [cs] has, or any phone other than 0 (step 4 compares the phone
    with [c.phoneNumber], which no row has). *)
Definition brings_new_information (email : option string) (phoneNumber : option Z)
    (cs : list Contact) : Prop :=
  (exists e, email = Some e /\ e <> ""
             /\ forall c, In c cs -> ContactRow.email c <> Some e)
  \/ (exists n, phoneNumber = Some n /\ n <> 0).

(** [N] is the row an INSERT of the call makes: the next id of the sequence,
    the email and the phone of the request (nothing for an absent field or an
    empty email), both time stamps at the time of the call, not deleted. *)
Definition inserted_row (now : Z) (email : option string) (phoneNumber : option Z)
    (db : Db) (N : Contact) : Prop :=
  id N = seq db
  /\ ContactRow.email N = (if truthy_string email then email else None)
  /\ ContactRow.phoneNumber N = option_map toString phoneNumber
  /\ createdAt N = now /\ updatedAt N = now /\ deletedAt N = None.

(** What a call that returns has done: with no match it has appended a
    primary without link and reports it; with a match it reports the oldest
    matched contact [p] and has appended one secondary linked to [p] exactly
    when the request carries an email the working set does not have or a
    phone other than 0. *)
Definition call_effect (now : Z) (email : option string) (phoneNumber : option Z)
    (db : Db) (v : ContactView) (db' : Db) : Prop :=
  match matched email phoneNumber (table db) with
  | [] =>
      exists N, table db' = table db ++ [N]
                /\ inserted_row now email phoneNumber db N
                /\ linkPrecedence N = primary /\ linkedId N = None
                /\ primaryContactId v = id N
  | p :: _ =>
      primaryContactId v = id p
      /\ ((brings_new_information email phoneNumber (p :: get_linked (id p) (table db))
           /\ exists N, table db' = table db ++ [N]
                        /\ inserted_row now email phoneNumber db N
                        /\ linkPrecedence N = secondary /\ linkedId N = Some (id p))
          \/ (~ brings_new_information email phoneNumber
                  (p :: get_linked (id p) (table db))
              /\ db' = db))
  end.

(** Everything a response names is in the store: the contact reported as
    primary is a live row [P]; each secondary id is the id of another live
    row linked to [P]; each email and each phone string listed is stored on
    [P] or on a live row linked to [P]. *)
Definition view_is_sound (rows : list Contact) (v : ContactView) : Prop :=
  exists P,
    In P rows /\ id P = primaryContactId v /\ deletedAt P = None
    /\ (forall i, In i (secondaryContactIds v) ->
          exists c, In c rows /\ id c = i /\ i <> id P
                    /\ linkedId c = Some (id P) /\ deletedAt c = None)
    /\ (forall x, In x (emails v) ->
          exists c, In c rows /\ ContactRow.email c = Some x /\ deletedAt c = None
                    /\ (c = P \/ linkedId c = Some (id P)))
    /\ (forall x, In (js_string x) (phoneNumbers v) ->
          exists c, In c rows /\ ContactRow.phoneNumber c = Some x /\ deletedAt c = None
                    /\ (c = P \/ linkedId c = Some (id P))).

(** The response lists the email the request carried; its phone list is the
    phone of the request alone when nothing matched, and the one entry
    [undefined] when something did. *)
Definition request_is_in_view (email : option string) (phoneNumber : option Z)
    (rows : list Contact) (v : ContactView) : Prop :=
  (forall e, email = Some e -> e <> "" -> In e (emails v))
  /\ (matched email phoneNumber rows = [] ->
      forall n, phoneNumber = Some n -> n <> 0 ->
        phoneNumbers v = [js_string (toString n)])
  /\ (matched email phoneNumber rows <> [] -> phoneNumbers v = [js_undefined]).

(** No email and no phone is listed twice, and the primary is not listed
    among the secondaries. *)
Definition view_has_no_repetition (v : ContactView) : Prop :=
  NoDup (emails v) /\ NoDup (phoneNumbers v)
  /\ ~ In (primaryContactId v) (secondaryContactIds v).

(** The working contact is a matched contact none of the matched contacts is
    older than. *)
Definition reports_oldest_match (email : option string) (phoneNumber : option Z)
    (rows : list Contact) (v : ContactView) : Prop :=
  exists P, In P (matched email phoneNumber rows)
            /\ primaryContactId v = id P
            /\ forall c, In c (matched email phoneNumber rows) ->
                 createdAt P <= createdAt c.

(** The rows without the soft-deleted ones. *)
Definition live_rows (rows : list Contact) : list Contact :=
  filter (fun c => is_null (deletedAt c)) rows.

(** Some contact is deleted: the primary 1 = (lorraine, 123456), its deleted
    secondary 2 = (mcfly, 123456) and the deleted primary 3 = (doc, 717171). *)
Definition store_with_deleted : Db :=
  mkDb [row 1 lorraine "123456" None primary 10;
        mkContact 2 (Some "123456") (Some mcfly) (Some 1) secondary 20 20 (Some 25);
        mkContact 3 (Some "717171") (Some doc) None primary 30 30 (Some 35)] 4.

(** The oracle under which the third statement of a call fails. *)
Definition third_fails : nat -> bool := fun k => Nat.eqb k 2.

(** The call creates exactly one contact [N], a primary without link that
    stores the email and the phone of the request (nothing for an absent
    field or an empty email), and answers with the id of [N], its email, the
    phone of the request unless it is 0, and no secondary. *)
Definition customer_created (now : Z) (email : option string)
    (phoneNumber : option Z) (db : Db) : Prop :=
  exists N,
    identifyCustomer no_faults now email phoneNumber db =
      (Ok (mkView (id N) (present (ContactRow.email N))
             (match phoneNumber with
              | Some n => if n =? 0 then [] else [js_string (toString n)]
              | None => []
              end)
             []),
       mkDb (table db ++ [N]) (seq db + 1))
    /\ id N = seq db
    /\ linkPrecedence N = primary /\ linkedId N = None
    /\ (forall e, email = Some e -> e <> "" -> ContactRow.email N = Some e)
    /\ (email = None \/ email = Some "" -> ContactRow.email N = None)
    /\ ContactRow.phoneNumber N = option_map toString phoneNumber
    /\ createdAt N = now /\ deletedAt N = None.

(** ** Notions for failures *)

(** The number of operations a call issues when none fails: [pool.connect()],
    BEGIN, the search unless email and phone are both falsy, then either the
    INSERT of step 2 or the query of step 3 and, with something new, the
    INSERT of step 5, and COMMIT. *)
Definition statements_issued (email : option string) (phoneNumber : option Z)
    (rows : list Contact) : nat :=
  2 + (if truthy_string email || truthy_number phoneNumber then 1 else 0)
  + match matched email phoneNumber rows with
    | [] => 2
    | p :: _ =>
        1 + (if hasNewEmail email (p :: get_linked (id p) rows)
                || hasNewPhone phoneNumber (p :: get_linked (id p) rows)
             then 1 else 0)
        + 1
    end.

(** The error a call throws when its operation [k] is the first to fail: the
    error of [k], unless the ROLLBACK of the catch block, the operation after
    [k], fails too and its error takes the place ([pool.connect()], operation
    0, is outside the try block). *)
Definition thrown_error (faults : nat -> bool) (k : nat) : nat :=
  if (0 <? k)%nat && faults (S k) then S k else k.

(** The call throws [e] and hands the client back with the committed rows
    the call found and no transaction on it. *)
Definition rolled_back (faults : nat -> bool) (now : Z) (email : option string)
    (phoneNumber : option Z) (db : Db) (e : nat) : Prop :=
  exists c,
    identify_released faults now email phoneNumber db = (Throw e, c)
    /\ committed c = table db
    /\ pending c = None.

(** The view lists the emails and the secondaries around the contact [P] it
    reports: [S] is the live contacts linked to [P] in ascending [createdAt];
    [emails] is the emails of [P :: S] without null and without repetition,
    in that order, and [secondaryContactIds] is the ids of [S]. *)
Definition emails_and_ids_in_order (rows : list Contact) (v : ContactView) : Prop :=
  exists P S,
    In P rows /\ id P = primaryContactId v /\ deletedAt P = None
    /\ Permutation S (filter (linked_where (id P)) rows)
    /\ ascending S
    /\ emails v = dedup (non_null email (P :: S))
    /\ secondaryContactIds v = map id S.

(** * Properties *)

(** ** The call as a function of the store *)

Ltac unfold_call :=
  unfold identifyCustomer, identify_released, identify_conn, identify_body,
    connect, query_begin,
    query_commit, query_rollback, query_select, query_insert, statement,
    try_catch, bind, ret, throw, visible; simpl.

Lemma identifyCustomer_no_faults (now : Z) (email : option string)
    (phoneNumber : option Z) (db : Db) :
  identifyCustomer no_faults now email phoneNumber db =
  (Ok (fst (identify_run now email phoneNumber db)),
   snd (identify_run now email phoneNumber db)).
Proof.
  destruct db as [rows s].
  unfold identify_run, matched, singleton_view. unfold_call.
  destruct (truthy_string email || truthy_number phoneNumber); simpl.
  - destruct (search (or_null email) (phone_param phoneNumber) rows) as [|p rest];
      simpl; [reflexivity|].
    destruct (hasNewEmail email (p :: get_linked (id p) rows)
              || hasNewPhone phoneNumber (p :: get_linked (id p) rows));
      reflexivity.
  - reflexivity.
Qed.

(** Under any oracle a call either throws, leaving the committed rows as they
    were, or goes through exactly as the call without faults does. *)
Lemma identifyCustomer_cases (faults : nat -> bool) (now : Z)
    (email : option string) (phoneNumber : option Z) (db : Db) :
  (exists k, fst (identifyCustomer faults now email phoneNumber db) = Throw k
             /\ table (snd (identifyCustomer faults now email phoneNumber db)) = table db
             /\ seq db <= seq (snd (identifyCustomer faults now email phoneNumber db))
                       <= seq db + 1)
  \/ identifyCustomer faults now email phoneNumber db =
     identifyCustomer no_faults now email phoneNumber db.
Proof.
  destruct db as [rows s].
  unfold_call.
  repeat
    (simpl;
     match goal with
     | |- context [if faults ?k then _ else _] => destruct (faults k)
     | |- context [if ?a || ?b then _ else _] => destruct (a || b)
     | |- context [match search ?a ?b ?c with _ => _ end] => destruct (search a b c)
     end);
    simpl;
    first [ right; reflexivity
          | left; eexists; repeat split; simpl; lia ].
Qed.

Lemma identify_run_table (now : Z) (email : option string)
    (phoneNumber : option Z) (db : Db) :
  snd (identify_run now email phoneNumber db) = db
  \/ exists link prec,
       snd (identify_run now email phoneNumber db) =
       mkDb (table db ++ [new_row now (seq db) (or_null email)
                            (phone_param phoneNumber) link prec])
            (seq db + 1).
Proof.
  unfold identify_run.
  destruct (matched email phoneNumber (table db)) as [|p rest].
  - right. eexists; eexists; reflexivity.
  - destruct (hasNewEmail email _ || hasNewPhone phoneNumber _); simpl.
    + right. eexists; eexists; reflexivity.
    + left. reflexivity.
Qed.

(** A call that returns normally went through as the call without faults. *)
Lemma identifyCustomer_ok (faults : nat -> bool) (now : Z)
    (email : option string) (phoneNumber : option Z) (db db' : Db)
    (v : IdentifyResponse) :
  identifyCustomer faults now email phoneNumber db = (Ok v, db') ->
  identify_run now email phoneNumber db = (v, db').
Proof.
  intros H.
  destruct (identifyCustomer_cases faults now email phoneNumber db)
    as [(k & Hk & _) | Heq].
  - rewrite H in Hk. discriminate.
  - rewrite Heq, identifyCustomer_no_faults in H.
    inversion H. apply surjective_pairing.
Qed.

(** X12: a fault in one of the first four statements hits a statement that
    every call issues (the shortest call is connect, BEGIN, INSERT, COMMIT):
    the call throws. *)
Lemma early_fault_throws (faults : nat -> bool) (now : Z)
    (email : option string) (phoneNumber : option Z) (db : Db) (k : nat) :
  (k <= 3)%nat -> faults k = true ->
  exists e, fst (identifyCustomer faults now email phoneNumber db) = Throw e.
Proof.
  intros Hk Hf.
  assert (Hc : k = 0%nat \/ k = 1%nat \/ k = 2%nat \/ k = 3%nat) by lia.
  destruct db as [rows s].
  unfold_call.
  repeat
    (simpl;
     match goal with
     | |- context [if faults ?j then _ else _] => destruct (faults j) eqn:?
     | |- context [if ?a || ?b then _ else _] => destruct (a || b)
     | |- context [match search ?a ?b ?c with _ => _ end] => destruct (search a b c)
     end);
    simpl;
    try (eexists; reflexivity);
    destruct Hc as [-> | [-> | [-> | ->]]]; congruence.
Qed.

(** ** Lists: ordering and duplicates *)

Lemma insert_by_createdAt_perm (c : Contact) (cs : list Contact) :
  Permutation (insert_by_createdAt c cs) (c :: cs).
Proof.
  induction cs as [|d rest IH]; simpl.
  - apply Permutation_refl.
  - destruct (createdAt c <=? createdAt d).
    + apply Permutation_refl.
    + eapply perm_trans; [apply perm_skip, IH | apply perm_swap].
Qed.

Lemma order_by_createdAt_perm (cs : list Contact) :
  Permutation (order_by_createdAt cs) cs.
Proof.
  induction cs as [|c rest IH]; simpl.
  - apply perm_nil.
  - eapply perm_trans; [apply insert_by_createdAt_perm | apply perm_skip, IH].
Qed.

Lemma order_by_createdAt_In (c : Contact) (cs : list Contact) :
  In c (order_by_createdAt cs) <-> In c cs.
Proof.
  split; apply Permutation_in;
    [ | apply Permutation_sym ]; apply order_by_createdAt_perm.
Qed.

Lemma insert_by_createdAt_ascending (c : Contact) (cs : list Contact) :
  ascending cs -> ascending (insert_by_createdAt c cs).
Proof.
  unfold ascending. induction 1 as [|d rest Hs IH Hd]; simpl.
  - constructor; constructor.
  - destruct (createdAt c <=? createdAt d) eqn:E.
    + apply Z.leb_le in E.
      constructor; [constructor; assumption|].
      constructor; [exact E|].
      eapply Forall_impl; [|exact Hd].
      unfold older_or_equal. intros x Hx. lia.
    + apply Z.leb_gt in E.
      constructor; [exact IH|].
      eapply Permutation_Forall;
        [apply Permutation_sym, insert_by_createdAt_perm|].
      constructor; [unfold older_or_equal; lia | exact Hd].
Qed.

Lemma order_by_createdAt_ascending (cs : list Contact) :
  ascending (order_by_createdAt cs).
Proof.
  induction cs as [|c rest IH]; simpl.
  - constructor.
  - apply insert_by_createdAt_ascending, IH.
Qed.

Lemma ascending_snoc (cs : list Contact) (n : Contact) :
  ascending cs ->
  (forall c, In c cs -> createdAt c <= createdAt n) ->
  ascending (cs ++ [n]).
Proof.
  unfold ascending. induction 1 as [|d rest Hs IH Hd]; intros Hle; simpl.
  - constructor; constructor.
  - constructor.
    + apply IH. intros c Hc. apply Hle. right. exact Hc.
    + apply Forall_app. split; [exact Hd|].
      constructor; [|constructor].
      apply Hle. left. reflexivity.
Qed.

(** A row that is not older than any row of the list is sorted last. *)
Lemma insert_by_createdAt_snoc (c n : Contact) (cs : list Contact) :
  createdAt c <= createdAt n ->
  insert_by_createdAt c (cs ++ [n]) = insert_by_createdAt c cs ++ [n].
Proof.
  intros Hle. induction cs as [|d rest IH]; simpl.
  - apply Z.leb_le in Hle. rewrite Hle. reflexivity.
  - destruct (createdAt c <=? createdAt d); [reflexivity|].
    rewrite IH. reflexivity.
Qed.

Lemma order_by_createdAt_snoc (cs : list Contact) (n : Contact) :
  (forall c, In c cs -> createdAt c <= createdAt n) ->
  order_by_createdAt (cs ++ [n]) = order_by_createdAt cs ++ [n].
Proof.
  induction cs as [|c rest IH]; intros Hle; simpl.
  - reflexivity.
  - rewrite IH by (intros x Hx; apply Hle; right; exact Hx).
    apply insert_by_createdAt_snoc. apply Hle. left. reflexivity.
Qed.

Lemma filter_all {A : Type} (f : A -> bool) (l : list A) :
  (forall x, In x l -> f x = true) -> filter f l = l.
Proof.
  induction l as [|a l IH]; intros H; simpl.
  - reflexivity.
  - rewrite (H a (or_introl eq_refl)). f_equal.
    apply IH. intros x Hx. apply H. right. exact Hx.
Qed.

Lemma filter_none {A : Type} (f : A -> bool) (l : list A) :
  (forall x, In x l -> f x = false) -> filter f l = [].
Proof.
  induction l as [|a l IH]; intros H; simpl.
  - reflexivity.
  - rewrite (H a (or_introl eq_refl)).
    apply IH. intros x Hx. apply H. right. exact Hx.
Qed.

Lemma existsb_eqb_In (x : string) (seen : list string) :
  existsb (String.eqb x) seen = true <-> In x seen.
Proof.
  rewrite existsb_exists. split.
  - intros (y & Hy & E). apply String.eqb_eq in E. subst. exact Hy.
  - intros H. exists x. split; [exact H | apply String.eqb_refl].
Qed.

Lemma dedup_from_In (x : string) (xs seen : list string) :
  In x (dedup_from seen xs) <-> In x xs /\ ~ In x seen.
Proof.
  revert seen. induction xs as [|y rest IH]; intros seen; simpl.
  - tauto.
  - destruct (existsb (String.eqb y) seen) eqn:E.
    + apply existsb_eqb_In in E. rewrite IH.
      split; [tauto|]. intros [[-> | H] Hn]; [contradiction | tauto].
    + assert (Hy : ~ In y seen).
      { intros H. apply existsb_eqb_In in H. congruence. }
      simpl. rewrite IH. simpl.
      split.
      * intros [-> | [H Hn]]; [tauto|]. split; [tauto|]. intros H'. apply Hn. tauto.
      * intros [[-> | H] Hn]; [tauto|].
        destruct (string_dec y x) as [-> | Hne]; [tauto|].
        right. split; [exact H|]. intros [E' | H']; [contradiction | tauto].
Qed.

Lemma dedup_from_NoDup (xs seen : list string) : NoDup (dedup_from seen xs).
Proof.
  revert seen. induction xs as [|y rest IH]; intros seen; simpl.
  - constructor.
  - destruct (existsb (String.eqb y) seen); [apply IH|].
    constructor; [|apply IH].
    rewrite dedup_from_In. simpl. tauto.
Qed.

Lemma dedup_NoDup (xs : list string) : NoDup (dedup xs).
Proof. apply dedup_from_NoDup. Qed.

Lemma dedup_In (x : string) (xs : list string) : In x (dedup xs) <-> In x xs.
Proof. unfold dedup. rewrite dedup_from_In. simpl. tauto. Qed.

Lemma dedup_head (x : string) (xs : list string) :
  hd_error (dedup (x :: xs)) = Some x.
Proof. reflexivity. Qed.

Lemma non_null_In (f : Contact -> option string) (x : string) (cs : list Contact) :
  In x (non_null f cs) <-> exists c, In c cs /\ f c = Some x.
Proof.
  induction cs as [|c rest IH]; simpl.
  - split; [tauto | intros (c & [] & _)].
  - destruct (f c) as [s|] eqn:E; simpl; rewrite IH; split.
    + intros [-> | (d & Hd & Hf)]; [exists c; tauto | exists d; tauto].
    + intros (d & [-> | Hd] & Hf); [left; congruence | right; exists d; tauto].
    + intros (d & Hd & Hf). exists d; tauto.
    + intros (d & [-> | Hd] & Hf); [congruence | exists d; tauto].
Qed.

(** ** The decimal string of a number is not empty *)

Lemma toString_nonempty (n : Z) : truthy_string (Some (toString n)) = true.
Proof.
  unfold toString, NilZero.string_of_int.
  destruct (Z.to_int n) as [d|d].
  - unfold NilZero.string_of_uint. destruct d; reflexivity.
  - reflexivity.
Qed.

Lemma phone_param_some (n : Z) : phone_param (Some n) = Some (toString n).
Proof.
  unfold phone_param, or_null, phone_string, option_map.
  rewrite toString_nonempty. reflexivity.
Qed.

(** ** Invalid input, failures and the frame of a call *)

(** C4: a request with neither email nor phoneNumber is answered with the
    client error 400 before [identifyCustomer] is called; the store is the
    one the request found, whatever the store would have answered. *)
Theorem absent_input_is_rejected (faults : nat -> bool) (now : Z) (db : Db) :
  post_identify faults now None None db = (Http400, db).
Proof. reflexivity. Qed.

(** The same guard turns away the empty email and the phone number 0. *)
Lemma falsy_input_is_rejected (faults : nat -> bool) (now : Z)
    (email : option string) (phoneNumber : option Z) (db : Db) :
  truthy_string email = false -> truthy_number phoneNumber = false ->
  post_identify faults now email phoneNumber db = (Http400, db).
Proof.
  intros He Hp. unfold post_identify. rewrite He, Hp. reflexivity.
Qed.

(** C9: when an operation of a call fails, whichever it is and whatever came
    before it, the call throws and nothing of it stays: the catch block sends
    ROLLBACK, the client goes back to the pool with the committed rows the
    call found and without a transaction, and the handler answers the server
    error 500.  The error thrown is the error of the failed operation (of the
    ROLLBACK, should that fail too). *)
Theorem failed_call_is_rolled_back (faults : nat -> bool) (now : Z)
    (email : option string) (phoneNumber : option Z) (db : Db) (k : nat) :
  faults k = true ->
  (forall j, (j < k)%nat -> faults j = false) ->
  (k < statements_issued email phoneNumber (table db))%nat ->
  rolled_back faults now email phoneNumber db (thrown_error faults k)
  /\ faults (thrown_error faults k) = true
  /\ table (snd (identifyCustomer faults now email phoneNumber db)) = table db
  /\ (truthy_string email || truthy_number phoneNumber = true ->
      fst (post_identify faults now email phoneNumber db) = Http500).
Proof.
  intros Hk Hfirst Hlt.
  assert (F : forall j, (j < k)%nat -> faults j = false) by exact Hfirst.
  assert (Hmain : rolled_back faults now email phoneNumber db (thrown_error faults k)
                  /\ faults (thrown_error faults k) = true).
  { unfold rolled_back, thrown_error, statements_issued, matched in *.
    destruct db as [rows s]. cbn [table seq] in *.
    unfold identify_released, identify_conn, identify_body, connect, query_begin,
      query_commit, query_rollback, query_select, query_insert, statement,
      try_catch, bind, ret, throw, visible.
    simpl.
    destruct (truthy_string email || truthy_number phoneNumber);
      [destruct (search (or_null email) (phone_param phoneNumber) rows)
         as [|p rest] eqn:Es;
       [|destruct (hasNewEmail email (p :: get_linked (id p) rows)
                   || hasNewPhone phoneNumber (p :: get_linked (id p) rows)) eqn:En]|];
      simpl in Hlt;
      (destruct k as [|[|[|[|[|[|k]]]]]]; try lia);
      repeat (simpl;
              match goal with
              | H : search _ _ _ = _ |- context [search _ _ _] => rewrite H
              | H : hasNewEmail _ _ || hasNewPhone _ _ = _
                |- context [hasNewEmail _ _ || hasNewPhone _ _] => rewrite H
              | |- context [faults ?j] =>
                  first [ rewrite Hk
                        | rewrite (F j) by lia
                        | destruct (faults j) eqn:? ]
              end);
      simpl;
      (split; [eexists; repeat split | first [assumption | reflexivity]]). }
  destruct Hmain as [Hrb Hf]. split; [exact Hrb|]. split; [exact Hf|].
  destruct Hrb as (c & Hrun & Hc & Hp).
  assert (Hcall : identifyCustomer faults now email phoneNumber db =
                  (Throw (thrown_error faults k), mkDb (committed c) (nextval c))).
  { unfold identifyCustomer. rewrite Hrun. reflexivity. }
  split.
  - rewrite Hcall. exact Hc.
  - intros Hacc. unfold post_identify. rewrite <- negb_orb, Hacc, Hcall. reflexivity.
Qed.

(** The COMMIT of a call that has inserted a secondary fails: the insert is
    undone and the error of the COMMIT is thrown. *)
Lemma failed_call_is_rolled_back_witness :
  sixth_fails 5 = true
  /\ (forall j, (j < 5)%nat -> sixth_fails j = false)
  /\ (5 < statements_issued (Some mcfly) (Some 123456%Z) (table one_primary))%nat
  /\ rolled_back sixth_fails 20 (Some mcfly) (Some 123456) one_primary
       (thrown_error sixth_fails 5)
  /\ sixth_fails (thrown_error sixth_fails 5) = true
  /\ table (snd (identifyCustomer sixth_fails 20 (Some mcfly) (Some 123456) one_primary))
     = table one_primary
  /\ (truthy_string (Some mcfly) || truthy_number (Some 123456) = true ->
      fst (post_identify sixth_fails 20 (Some mcfly) (Some 123456) one_primary)
      = Http500).
Proof.
  assert (Hk : sixth_fails 5 = true) by reflexivity.
  assert (Hfirst : forall j, (j < 5)%nat -> sixth_fails j = false).
  { intros j Hj. destruct j as [|[|[|[|[|j]]]]]; try reflexivity. lia. }
  assert (Hlt : (5 < statements_issued (Some mcfly) (Some 123456%Z)
                       (table one_primary))%nat).
  { assert (E : statements_issued (Some mcfly) (Some 123456) (table one_primary)
                = 6%nat) by (vm_compute; reflexivity).
    rewrite E. lia. }
  split; [exact Hk|]. split; [exact Hfirst|]. split; [exact Hlt|].
  exact (failed_call_is_rolled_back sixth_fails 20 (Some mcfly) (Some 123456)
           one_primary 5%nat Hk Hfirst Hlt).
Defined.

(** C10: whatever the store answers, the rows a call found are still there,
    unchanged and in place; a call adds at most one row, and that row has the
    id the sequence gave it. *)
Theorem existing_rows_are_untouched (faults : nat -> bool) (now : Z)
    (email : option string) (phoneNumber : option Z) (db : Db) :
  exists added,
    table (snd (identifyCustomer faults now email phoneNumber db)) = table db ++ added
    /\ (List.length added <= 1)%nat
    /\ Forall (fun c => id c = seq db) added.
Proof.
  destruct (identifyCustomer_cases faults now email phoneNumber db)
    as [(k & _ & Ht & _) | Heq].
  - exists []. rewrite Ht, app_nil_r. repeat split; [simpl; lia | constructor].
  - rewrite Heq, identifyCustomer_no_faults. simpl.
    destruct (identify_run_table now email phoneNumber db)
      as [E | (link & prec & E)]; rewrite E.
    + exists []. rewrite app_nil_r. repeat split; [simpl; lia | constructor].
    + eexists. simpl. repeat split; [simpl; lia|].
      constructor; [reflexivity | constructor].
Qed.

(** ** Where the code parts from the specification: no merge, no roots *)

(** C1: A = (lorraine, 123456) is the older primary and B = (doc, 717171) the
    newer one.  A call with A's email and B's phone leaves B as it was, a
    primary without link, inserts the secondary 3 under A, and answers without
    B's email, without B's id and without any phone ([c.phoneNumber] is
    [undefined] on every row). *)
Theorem bridging_call_does_not_merge :
  two_primaries =
    mkDb [row 1 lorraine "123456" None primary 10;
          row 2 doc "717171" None primary 20] 3
  /\ identifyCustomer no_faults 30 (Some lorraine) (Some 717171) two_primaries =
       (Ok (mkView 1 [lorraine] [js_undefined] [3]),
        mkDb [row 1 lorraine "123456" None primary 10;
              row 2 doc "717171" None primary 20;
              row 3 lorraine "717171" (Some 1) secondary 30] 4).
Proof. split; vm_compute; reflexivity. Qed.

Lemma primary_and_secondary_rows :
  primary_and_secondary =
    mkDb [row 1 lorraine "123456" None primary 10;
          row 2 mcfly "123456" (Some 1) secondary 20] 3.
Proof. vm_compute. reflexivity. Qed.

(** C2: the store of the primary 1 and its secondary 2 is a depth-one forest;
    after a call with the email of 2 and a new phone it is not: the call
    inserts the secondary 3 with [linkedId] 2. *)
Theorem secondary_gets_linked_to_secondary :
  forest_invariant (table primary_and_secondary)
  /\ snd (identifyCustomer no_faults 30 (Some mcfly) (Some 999) primary_and_secondary) =
       mkDb [row 1 lorraine "123456" None primary 10;
             row 2 mcfly "123456" (Some 1) secondary 20;
             row 3 mcfly "999" (Some 2) secondary 30] 4
  /\ ~ forest_invariant
         (table (snd (identifyCustomer no_faults 30 (Some mcfly) (Some 999)
                        primary_and_secondary))).
Proof.
  assert (E : snd (identifyCustomer no_faults 30 (Some mcfly) (Some 999)
                     primary_and_secondary) =
              mkDb [row 1 lorraine "123456" None primary 10;
                    row 2 mcfly "123456" (Some 1) secondary 20;
                    row 3 mcfly "999" (Some 2) secondary 30] 4)
    by (vm_compute; reflexivity).
  rewrite E, primary_and_secondary_rows. cbn [table].
  split; [|split].
  - intros c Hc _ Hs. exists (row 1 lorraine "123456" None primary 10).
    destruct Hc as [<- | [<- | []]].
    + discriminate Hs.
    + split; [left; reflexivity | split; reflexivity].
  - reflexivity.
  - intros H.
    destruct (H (row 3 mcfly "999" (Some 2) secondary 30)) as (p & Hp & Hl & Hprim);
      [right; right; left; reflexivity | reflexivity | reflexivity |].
    destruct Hp as [<- | [<- | [<- | []]]]; cbn in Hl, Hprim; congruence.
Qed.

(** C3: the only contact matched by the email of the secondary 2 is 2 itself,
    whose root is 1; the call works with 2: it reports 2 as the primary
    contact and leaves the root's email out, and with a new phone it files
    the new secondary 3 under 2. *)
Theorem working_contact_is_not_the_root :
  matched (Some mcfly) None (table primary_and_secondary) =
    [row 2 mcfly "123456" (Some 1) secondary 20]
  /\ map root_id (matched (Some mcfly) None (table primary_and_secondary)) = [1]
  /\ identifyCustomer no_faults 30 (Some mcfly) None primary_and_secondary =
       (Ok (mkView 2 [mcfly] [js_undefined] []), primary_and_secondary)
  /\ fst (identifyCustomer no_faults 30 (Some mcfly) (Some 999) primary_and_secondary) =
       Ok (mkView 2 [mcfly] [js_undefined] [3]).
Proof.
  split; [vm_compute; reflexivity|].
  split; [vm_compute; reflexivity|].
  split; vm_compute; reflexivity.
Qed.

(** C5: in the cluster of 1 = (lorraine, 123456) with the secondaries
    2 = (mcfly, 123456) and 3 = (lorraine, 555000), the email mcfly and the
    phone 555000 are both known, and both matched contacts have the root 1.
    The call with that pair still writes: it inserts the secondary 4 under
    the secondary 2, and answers with 2 as primary and no phone. *)
Theorem known_pair_is_written_again :
  map root_id (matched (Some mcfly) (Some 555000) (table primary_and_two_secondaries))
    = [1; 1]
  /\ In mcfly (non_null email (cluster_of 1 (table primary_and_two_secondaries)))
  /\ In "555000" (non_null phoneNumber (cluster_of 1 (table primary_and_two_secondaries)))
  /\ identifyCustomer no_faults 40 (Some mcfly) (Some 555000) primary_and_two_secondaries =
       (Ok (mkView 2 [mcfly] [js_undefined] [4]),
        mkDb (table primary_and_two_secondaries
              ++ [row 4 mcfly "555000" (Some 2) secondary 40]) 5).
Proof.
  assert (E : cluster_of 1 (table primary_and_two_secondaries) =
              [row 1 lorraine "123456" None primary 10;
               row 2 mcfly "123456" (Some 1) secondary 20;
               row 3 lorraine "555000" (Some 1) secondary 30])
    by (vm_compute; reflexivity).
  rewrite E.
  split; [vm_compute; reflexivity|].
  split; [right; left; reflexivity|].
  split; [right; right; left; reflexivity|].
  vm_compute. reflexivity.
Qed.

(** ** Reading the queries *)

Lemma sql_eq_true (col param : option string) :
  sql_eq col param = true <-> exists s, col = Some s /\ param = Some s.
Proof.
  destruct col as [x|], param as [y|]; simpl; split;
    try discriminate; try (intros (s & H1 & H2); discriminate).
  - intros E. apply String.eqb_eq in E. subst. exists y. auto.
  - intros (s & H1 & H2). inversion H1; inversion H2; subst. apply String.eqb_refl.
Qed.

Lemma is_null_true {A : Type} (x : option A) : is_null x = true <-> x = None.
Proof. destruct x; simpl; split; congruence. Qed.

Lemma linked_where_true (pid : Z) (c : Contact) :
  linked_where pid c = true <-> linkedId c = Some pid /\ deletedAt c = None.
Proof.
  unfold linked_where. destruct (linkedId c) as [k|].
  - rewrite andb_true_iff, Z.eqb_eq, is_null_true.
    split; intros [H1 H2]; split; congruence.
  - split; [discriminate | intros [H _]; discriminate].
Qed.

Lemma search_In (p_email p_phone : option string) (rows : list Contact) (c : Contact) :
  In c (search p_email p_phone rows) <->
  In c rows /\ deletedAt c = None
  /\ (sql_eq (email c) p_email = true \/ sql_eq (phoneNumber c) p_phone = true).
Proof.
  unfold search, search_where.
  rewrite order_by_createdAt_In, filter_In, andb_true_iff, orb_true_iff, is_null_true.
  tauto.
Qed.

Lemma get_linked_In (pid : Z) (rows : list Contact) (c : Contact) :
  In c (get_linked pid rows) <->
  In c rows /\ linkedId c = Some pid /\ deletedAt c = None.
Proof.
  unfold get_linked.
  rewrite order_by_createdAt_In, filter_In, linked_where_true. tauto.
Qed.

Lemma or_null_some (email : option string) (e : string) :
  or_null email = Some e -> email = Some e.
Proof.
  unfold or_null. destruct (truthy_string email); congruence.
Qed.

Lemma phone_param_inv (phoneNumber : option Z) (s : string) :
  phone_param phoneNumber = Some s -> exists n, phoneNumber = Some n /\ s = toString n.
Proof.
  destruct phoneNumber as [n|].
  - rewrite phone_param_some. intros E. inversion E. exists n. auto.
  - discriminate.
Qed.

(** A contact that is matched is live, in the table, and carries the email or
    the phone of the request. *)
Lemma matched_In (email : option string) (phoneNumber : option Z)
    (rows : list Contact) (c : Contact) :
  In c (matched email phoneNumber rows) ->
  In c rows /\ deletedAt c = None
  /\ ((exists e, email = Some e /\ ContactRow.email c = Some e)
      \/ (exists n, phoneNumber = Some n /\ ContactRow.phoneNumber c = Some (toString n))).
Proof.
  unfold matched.
  destruct (truthy_string email || truthy_number phoneNumber); [|intros []].
  rewrite search_In. intros (Hin & Hdel & Hm). repeat split; try assumption.
  destruct Hm as [Hm | Hm]; apply sql_eq_true in Hm; destruct Hm as (s & Hc & Hp).
  - left. exists s. split; [apply or_null_some; exact Hp | exact Hc].
  - right. apply phone_param_inv in Hp. destruct Hp as (n & -> & ->).
    exists n. auto.
Qed.

Lemma no_match_matched (email : option string) (phoneNumber : option Z)
    (rows : list Contact) :
  no_match email phoneNumber rows -> matched email phoneNumber rows = [].
Proof.
  intros Hno.
  destruct (matched email phoneNumber rows) as [|c rest] eqn:E; [reflexivity|].
  assert (Hc : In c (matched email phoneNumber rows)) by (rewrite E; left; reflexivity).
  apply matched_In in Hc. destruct Hc as (Hin & Hdel & Hm).
  destruct (Hno c Hin Hdel) as [He Hp].
  destruct Hm as [(e & -> & Hc) | (n & -> & Hc)].
  - exfalso. exact (He e eq_refl Hc).
  - exfalso. exact (Hp n eq_refl Hc).
Qed.


Lemma hasNewEmail_known (email : option string) (cluster : list Contact) :
  (forall e, email = Some e -> In e (non_null ContactRow.email cluster)) ->
  hasNewEmail email cluster = false.
Proof.
  intros H. unfold hasNewEmail.
  destruct email as [e|]; [|reflexivity].
  destruct (truthy_string (Some e)); [|reflexivity]. simpl.
  apply negb_false_iff, existsb_exists.
  destruct (proj1 (non_null_In _ _ _) (H e eq_refl)) as (c & Hc & Hf).
  exists c. split; [exact Hc|]. rewrite Hf. simpl. apply String.eqb_refl.
Qed.

(** [c.phoneNumber] never equals the phone of a request. *)
Lemma phone_is_never_found (s : string) (cs : list Contact) :
  existsb (fun c => js_value_eqb (read_phoneNumber c) (js_string s)) cs = false.
Proof.
  induction cs as [|c rest IH]; [reflexivity | exact IH].
Qed.

Lemma hasNewPhone_falsy (phoneNumber : option Z) (cs : list Contact) :
  truthy_number phoneNumber = false -> hasNewPhone phoneNumber cs = false.
Proof.
  intros H. unfold hasNewPhone. rewrite H. reflexivity.
Qed.

Lemma hasNewPhone_truthy (n : Z) (cs : list Contact) :
  n <> 0 -> hasNewPhone (Some n) cs = true.
Proof.
  intros H. unfold hasNewPhone, phone_string, option_map, request_value.
  rewrite phone_is_never_found.
  destruct n; [congruence | reflexivity | reflexivity].
Qed.

(** X11: when the request carries no phone, or the phone 0, and its email is
    found among the oldest matched contact and the contacts linked to it, the
    call is a pure read: the store is left as it is, and the response does
    not depend on the time of the call. *)
Lemma nothing_new_is_a_pure_read (now : Z) (email : option string)
    (phoneNumber : option Z) (db : Db) (p : Contact) (rest : list Contact) :
  matched email phoneNumber (table db) = p :: rest ->
  (forall e, email = Some e ->
     In e (non_null ContactRow.email (p :: get_linked (id p) (table db)))) ->
  phoneNumber = None \/ phoneNumber = Some 0 ->
  identifyCustomer no_faults now email phoneNumber db =
    (Ok (consolidate p (p :: get_linked (id p) (table db))), db).
Proof.
  intros Hm He Hp.
  rewrite identifyCustomer_no_faults. unfold identify_run. rewrite Hm.
  rewrite (hasNewEmail_known _ _ He), hasNewPhone_falsy; [reflexivity|].
  destruct Hp as [-> | ->]; reflexivity.
Qed.

(** ** New customers *)

(** X16: when the store answers, a request that matches no live contact and
    whose values fit the columns creates exactly one contact, a primary
    without link that stores the email and the phone of the request (nothing
    for an absent field or an empty email); the response names that contact,
    its email and, unless the phone is 0, its phone, and no secondary. *)
Theorem unmatched_request_creates_a_primary (now : Z) (email : option string)
    (phoneNumber : option Z) (db : Db) :
  fits_columns email phoneNumber ->
  no_match email phoneNumber (table db) ->
  customer_created now email phoneNumber db.
Proof.
  intros _ Hno.
  exists (new_row now (seq db) (or_null email) (phone_param phoneNumber) None primary).
  rewrite identifyCustomer_no_faults. unfold identify_run.
  rewrite (no_match_matched _ _ _ Hno). simpl.
  assert (Hp : phone_param phoneNumber = option_map toString phoneNumber).
  { destruct phoneNumber as [n|]; [apply phone_param_some | reflexivity]. }
  assert (Hv : singleton_view (seq db) email phoneNumber =
               mkView (seq db) (present (or_null email))
                 (match phoneNumber with
                  | Some n => if n =? 0 then [] else [js_string (toString n)]
                  | None => []
                  end) []).
  { unfold singleton_view. f_equal.
    - destruct email as [[|a s]|]; reflexivity.
    - destruct phoneNumber as [[|n|n]|]; reflexivity. }
  rewrite Hv, Hp.
  repeat split.
  - intros e -> He. destruct e; [congruence | reflexivity].
  - intros [-> | ->]; reflexivity.
Qed.

Lemma unmatched_request_creates_a_primary_witness :
  fits_columns (Some lorraine) (Some 123456)
  /\ no_match (Some lorraine) (Some 123456) (table empty_db)
  /\ customer_created 10 (Some lorraine) (Some 123456) empty_db.
Proof.
  assert (Hfit : fits_columns (Some lorraine) (Some 123456)).
  { split.
    - intros e He. inversion He; subst e. apply Nat.leb_le. vm_compute. reflexivity.
    - intros n Hn. inversion Hn; subst n. apply Nat.leb_le. vm_compute. reflexivity. }
  assert (Hno : no_match (Some lorraine) (Some 123456) (table empty_db))
    by (intros c []).
  split; [exact Hfit|]. split; [exact Hno|].
  exact (unmatched_request_creates_a_primary 10 (Some lorraine) (Some 123456)
           empty_db Hfit Hno).
Defined.

(** C6: for the phone 0 the new-customer branch parts from the claim: nothing
    matches in the empty store, the contact created stores the phone "0", and
    the response, built from the truthiness of the request (line 89), lists no
    phone. *)
Theorem phone_zero_is_stored_but_not_reported :
  no_match (Some doc) (Some 0) (table empty_db)
  /\ identifyCustomer no_faults 10 (Some doc) (Some 0) empty_db =
       (Ok (mkView 1 [doc] [] []), mkDb [row 1 doc "0" None primary 10] 2)
  /\ ~ new_customer_outcome 10 (Some doc) (Some 0) empty_db.
Proof.
  split; [intros c []|]. split; [vm_compute; reflexivity|].
  intros (N & Hrun & _ & _ & _ & _ & _ & Hphone & _).
  assert (E : identifyCustomer no_faults 10 (Some doc) (Some 0) empty_db =
              (Ok (mkView 1 [doc] [] []), mkDb [row 1 doc "0" None primary 10] 2))
    by (vm_compute; reflexivity).
  rewrite E, Hphone in Hrun. discriminate Hrun.
Qed.

(** ** The phone number on the write path and on the read path *)

Lemma identify_run_matched (now : Z) (email : option string)
    (phoneNumber : option Z) (db : Db) (p : Contact) (rest : list Contact) :
  matched email phoneNumber (table db) = p :: rest ->
  primaryContactId (fst (identify_run now email phoneNumber db)) = id p.
Proof.
  intros Hm. unfold identify_run. rewrite Hm.
  destruct (hasNewEmail email _ || hasNewPhone phoneNumber _); reflexivity.
Qed.





(** ** Stores the calls produce *)

Lemma wf_store_empty (now : Z) : wf_store now empty_db.
Proof. constructor. Qed.

Lemma matched_head_In (email : option string) (phoneNumber : option Z)
    (rows : list Contact) (p : Contact) (rest : list Contact) :
  matched email phoneNumber rows = p :: rest ->
  In p rows /\ deletedAt p = None.
Proof.
  intros E.
  assert (H : In p (matched email phoneNumber rows)) by (rewrite E; left; reflexivity).
  apply matched_In in H. tauto.
Qed.


(** ** The consolidated view *)

Lemma secondaries_filter (p : Contact) (S : list Contact) :
  (forall c, In c S -> id p < id c) ->
  map id (filter (fun c => negb (id c =? id p)) (p :: S)) = map id S.
Proof.
  intros H. simpl. rewrite Z.eqb_refl. simpl. f_equal.
  apply filter_all. intros c Hc.
  apply negb_true_iff, Z.eqb_neq. specialize (H c Hc). lia.
Qed.

(** X17: for a call that returns in a well-formed store, the response reports
    a live contact [P] of the final store; with [S] the live contacts linked
    to [P] in ascending [createdAt], [emails] is the emails of [P :: S]
    without null and without repetition, in that order, and
    [secondaryContactIds] is the ids of [S]. *)
Theorem emails_and_ids_are_in_order (faults : nat -> bool) (now : Z)
    (email : option string) (phoneNumber : option Z) (db db' : Db)
    (v : IdentifyResponse) :
  wf_store now db ->
  identifyCustomer faults now email phoneNumber db = (Ok v, db') ->
  emails_and_ids_in_order (table db') v.
Proof.
  intros Hwf H. apply identifyCustomer_ok in H.
  unfold wf_store in Hwf. rewrite Forall_forall in Hwf.
  unfold identify_run in H.
  destruct (matched email phoneNumber (table db)) as [|p rest] eqn:E.
  - (* step 2: a new primary *)
    inversion H; subst v db'; clear H. simpl.
    exists (new_row now (seq db) (or_null email) (phone_param phoneNumber) None primary), [].
    repeat split; try reflexivity.
    + apply in_or_app. right. left. reflexivity.
    + rewrite filter_app. simpl.
      rewrite filter_none; [constructor|].
      intros c Hc. destruct (linked_where (seq db) c) eqn:El; [|reflexivity].
      apply linked_where_true in El. destruct El as [El _].
      destruct (Hwf c Hc) as (H1 & _ & H3). specialize (H3 _ El). lia.
    + constructor.
    + simpl. destruct email as [[|a s]|]; reflexivity.
  - (* steps 3 to 6 *)
    destruct (matched_head_In _ _ _ _ _ E) as [Hin Hdel].
    assert (Hlinked : forall c, In c (get_linked (id p) (table db)) ->
              id p < id c /\ createdAt c <= now).
    { intros c Hc. apply get_linked_In in Hc. destruct Hc as (Hc & Hl & _).
      destruct (Hwf c Hc) as (_ & H2 & H3). split; [apply H3, Hl | exact H2]. }
    destruct (hasNewEmail email _ || hasNewPhone phoneNumber _);
      inversion H; subst v db'; clear H; simpl table.
    + exists p, (get_linked (id p) (table db)
                 ++ [new_row now (seq db) (or_null email) (phone_param phoneNumber)
                       (Some (id p)) secondary]).
      repeat split; try assumption; try reflexivity.
      * apply in_or_app. left. exact Hin.
      * rewrite filter_app. apply Permutation_app.
        -- apply order_by_createdAt_perm.
        -- simpl. unfold linked_where. simpl. rewrite Z.eqb_refl. apply Permutation_refl.
      * apply ascending_snoc; [apply order_by_createdAt_ascending|].
        intros c Hc. simpl. apply (Hlinked c Hc).
      * unfold consolidate. simpl secondaryContactIds.
        change ((p :: get_linked (id p) (table db)) ++ ?x)
          with (p :: (get_linked (id p) (table db) ++ x)).
        apply secondaries_filter.
        intros c Hc. apply in_app_or in Hc. destruct Hc as [Hc | [<- | []]].
        -- apply (Hlinked c Hc).
        -- simpl. destruct (Hwf p Hin) as (H1 & _). exact H1.
    + exists p, (get_linked (id p) (table db)).
      repeat split; try assumption; try reflexivity.
      * apply order_by_createdAt_perm.
      * apply order_by_createdAt_ascending.
      * unfold consolidate. simpl secondaryContactIds.
        apply secondaries_filter. intros c Hc. apply (Hlinked c Hc).
Qed.

Lemma emails_and_ids_are_in_order_witness :
  wf_store 20 one_primary
  /\ identifyCustomer no_faults 20 (Some mcfly) (Some 123456) one_primary =
       (Ok (mkView 1 [lorraine; mcfly] [js_undefined] [2]), primary_and_secondary)
  /\ emails_and_ids_in_order (table primary_and_secondary)
       (mkView 1 [lorraine; mcfly] [js_undefined] [2]).
Proof.
  assert (Hwf : wf_store 20 one_primary).
  { unfold wf_store.
    change one_primary with (mkDb [row 1 lorraine "123456" None primary 10] 2).
    simpl. constructor; [|constructor].
    simpl. split; [lia|]. split; [lia | discriminate]. }
  assert (Hrun : identifyCustomer no_faults 20 (Some mcfly) (Some 123456) one_primary =
                   (Ok (mkView 1 [lorraine; mcfly] [js_undefined] [2]),
                    primary_and_secondary))
    by (vm_compute; reflexivity).
  split; [exact Hwf|]. split; [exact Hrun|].
  exact (emails_and_ids_are_in_order no_faults 20 (Some mcfly) (Some 123456)
           one_primary primary_and_secondary
           (mkView 1 [lorraine; mcfly] [js_undefined] [2]) Hwf Hrun).
Defined.

(** C7: the response is not the consolidation the claim describes.  Whenever
    something matches, [phoneNumbers] is the one entry [undefined], whatever
    phones the cluster has: the primary 1 = (lorraine, 123456) gets the
    secondary 2 and the response lists no phone string.  With the phone 0 the
    contact created stores the phone "0" and the response lists no phone.
    With the email of the secondary 2 of the primary 1 the response reports 2
    as primary, without the email of 1 and without a secondary. *)
Theorem view_is_not_the_cluster :
  identifyCustomer no_faults 20 (Some mcfly) (Some 123456) one_primary =
    (Ok (mkView 1 [lorraine; mcfly] [js_undefined] [2]),
     mkDb [row 1 lorraine "123456" None primary 10;
           row 2 mcfly "123456" (Some 1) secondary 20] 3)
  /\ ~ consolidated_view
         [row 1 lorraine "123456" None primary 10;
          row 2 mcfly "123456" (Some 1) secondary 20]
         (mkView 1 [lorraine; mcfly] [js_undefined] [2])
  /\ identifyCustomer no_faults 10 (Some doc) (Some 0) empty_db =
       (Ok (mkView 1 [doc] [] []), mkDb [row 1 doc "0" None primary 10] 2)
  /\ ~ consolidated_view [row 1 doc "0" None primary 10] (mkView 1 [doc] [] [])
  /\ identifyCustomer no_faults 30 (Some mcfly) None primary_and_secondary =
       (Ok (mkView 2 [mcfly] [js_undefined] []),
        mkDb [row 1 lorraine "123456" None primary 10;
              row 2 mcfly "123456" (Some 1) secondary 20] 3)
  /\ ~ consolidated_view
         [row 1 lorraine "123456" None primary 10;
          row 2 mcfly "123456" (Some 1) secondary 20]
         (mkView 2 [mcfly] [js_undefined] []).
Proof.
  split; [vm_compute; reflexivity|]. split.
  { intros (P & S & _ & _ & _ & _ & _ & _ & _ & Hph & _).
    cbn [phoneNumbers] in Hph.
    destruct (dedup (non_null phoneNumber (P :: S))) as [|x l]; discriminate Hph. }
  split; [vm_compute; reflexivity|]. split.
  { intros (P & S & Hin & _ & _ & _ & _ & _ & _ & Hph & _).
    destruct Hin as [<- | []]. discriminate Hph. }
  split; [vm_compute; reflexivity|].
  intros (P & S & Hin & Hid & Hprim & _).
  destruct Hin as [<- | [<- | []]]; simpl in Hid, Hprim; congruence.
Qed.

(** ** Asking twice *)

Lemma order_by_createdAt_nil (cs : list Contact) :
  order_by_createdAt cs = [] -> cs = [].
Proof.
  intros H. destruct cs as [|c rest]; [reflexivity|].
  assert (Hin : In c (order_by_createdAt (c :: rest)))
    by (apply order_by_createdAt_In; left; reflexivity).
  rewrite H in Hin. destruct Hin.
Qed.

(** The row a call has just inserted carries what the request carried. *)
Lemma new_row_is_found (now nid : Z) (email : option string) (phoneNumber : option Z)
    (link : option Z) (prec : LinkPrecedence) :
  accepted email phoneNumber ->
  search_where (or_null email) (phone_param phoneNumber)
    (new_row now nid (or_null email) (phone_param phoneNumber) link prec) = true.
Proof.
  unfold accepted, search_where. intros H. simpl.
  rewrite andb_true_r. apply orb_true_iff.
  apply orb_true_iff in H. destruct H as [H | H].
  - left. unfold or_null. rewrite H.
    destruct email as [e|]; [|discriminate]. simpl. apply String.eqb_refl.
  - right. destruct phoneNumber as [n|]; [|discriminate].
    rewrite phone_param_some. simpl. apply String.eqb_refl.
Qed.

(** In a matched call every row gives [undefined] for [c.phoneNumber]: the
    phone list of the response is that one entry. *)
Lemma consolidate_phoneNumbers (p c : Contact) (cs : list Contact) :
  phoneNumbers (consolidate p (c :: cs)) = [js_undefined].
Proof.
  unfold consolidate, dedup_values. cbn [phoneNumbers]. simpl. f_equal.
  induction cs as [|d rest IH]; [reflexivity | exact IH].
Qed.

Lemma hasNew_after_insert (now nid : Z) (email : option string)
    (phoneNumber : option Z) (link : option Z) (prec : LinkPrecedence)
    (cluster : list Contact) :
  truthy_number phoneNumber = false ->
  In (new_row now nid (or_null email) (phone_param phoneNumber) link prec) cluster ->
  hasNewEmail email cluster || hasNewPhone phoneNumber cluster = false.
Proof.
  intros Hp Hin. apply orb_false_iff. split; [|apply hasNewPhone_falsy, Hp].
  unfold hasNewEmail. destruct (truthy_string email) eqn:T; [|reflexivity]. simpl.
  apply negb_false_iff, existsb_exists. eexists. split; [exact Hin|].
  simpl. unfold or_null. rewrite T.
  destruct email as [e|]; [|discriminate]. simpl. apply String.eqb_refl.
Qed.

Lemma get_linked_snoc (now : Z) (db : Db) (p n : Contact) :
  wf_store now db -> createdAt n = now ->
  linkedId n = Some (id p) -> deletedAt n = None ->
  get_linked (id p) (table db ++ [n]) = get_linked (id p) (table db) ++ [n].
Proof.
  intros Hwf Hc Hl Hd. unfold get_linked. rewrite filter_app. simpl.
  unfold linked_where at 2. rewrite Hl, Hd, Z.eqb_refl. simpl.
  apply order_by_createdAt_snoc.
  intros c Hin. apply filter_In in Hin. destruct Hin as [Hin _].
  unfold wf_store in Hwf. rewrite Forall_forall in Hwf.
  destruct (Hwf c Hin) as (_ & H2 & _). lia.
Qed.

(** The same request, without a phone, right after a call that created a
    customer. *)
Lemma identify_run_after_new_customer (now now2 : Z) (email : option string)
    (phoneNumber : option Z) (db : Db) :
  wf_store now db -> accepted email phoneNumber ->
  truthy_number phoneNumber = false ->
  matched email phoneNumber (table db) = [] ->
  let n := new_row now (seq db) (or_null email) (phone_param phoneNumber) None primary in
  identify_run now2 email phoneNumber (mkDb (table db ++ [n]) (seq db + 1)) =
    (consolidate n [n], mkDb (table db ++ [n]) (seq db + 1)).
Proof.
  intros Hwf Hacc Hphone E n.
  unfold wf_store in Hwf. rewrite Forall_forall in Hwf.
  assert (Hm : matched email phoneNumber (table db ++ [n]) = [n]).
  { unfold matched in *. unfold accepted in Hacc. rewrite Hacc in *.
    unfold search in *. apply order_by_createdAt_nil in E.
    rewrite filter_app, E. simpl. unfold n.
    rewrite (new_row_is_found _ _ _ _ _ _ Hacc). reflexivity. }
  assert (Hl : get_linked (id n) (table db ++ [n]) = []).
  { unfold get_linked. rewrite filter_app. simpl.
    rewrite filter_none; [reflexivity|].
    intros c Hc. destruct (linked_where (seq db) c) eqn:El; [|reflexivity].
    apply linked_where_true in El. destruct El as [El _].
    destruct (Hwf c Hc) as (H1 & _ & H3). specialize (H3 _ El). lia. }
  unfold identify_run. cbn [table seq]. rewrite Hm, Hl.
  rewrite (hasNew_after_insert now (seq db) email phoneNumber None primary)
    by (assumption || (left; reflexivity)).
  reflexivity.
Qed.

(** The same request, without a phone, right after a call that appended a
    secondary. *)
Lemma identify_run_after_new_secondary (now now2 : Z) (email : option string)
    (phoneNumber : option Z) (db : Db) (p : Contact) (rest : list Contact) :
  wf_store now db -> accepted email phoneNumber ->
  truthy_number phoneNumber = false ->
  matched email phoneNumber (table db) = p :: rest ->
  let n := new_row now (seq db) (or_null email) (phone_param phoneNumber)
             (Some (id p)) secondary in
  identify_run now2 email phoneNumber (mkDb (table db ++ [n]) (seq db + 1)) =
    (consolidate p ((p :: get_linked (id p) (table db)) ++ [n]),
     mkDb (table db ++ [n]) (seq db + 1)).
Proof.
  intros Hwf Hacc Hphone E n.
  pose proof Hwf as Hwf'. unfold wf_store in Hwf'. rewrite Forall_forall in Hwf'.
  assert (Hm : matched email phoneNumber (table db ++ [n]) = p :: rest ++ [n]).
  { unfold matched in *. unfold accepted in Hacc. rewrite Hacc in *.
    unfold search in *. rewrite filter_app. simpl. unfold n.
    rewrite (new_row_is_found _ _ _ _ _ _ Hacc).
    rewrite order_by_createdAt_snoc, E; [reflexivity|].
    intros c Hc. apply filter_In in Hc. destruct Hc as [Hc _].
    destruct (Hwf' c Hc) as (_ & H2 & _). exact H2. }
  unfold identify_run. cbn [table seq]. rewrite Hm.
  rewrite (get_linked_snoc now db p n Hwf eq_refl eq_refl eq_refl).
  rewrite (hasNew_after_insert now (seq db) email phoneNumber (Some (id p)) secondary)
    by (assumption || (right; apply in_or_app; right; left; reflexivity)).
  reflexivity.
Qed.

(** Asking again without a phone: the second call writes nothing and names
    the same contact, the same emails and the same secondaries. *)
Lemma second_identical_call_is_a_pure_read (now now2 : Z) (email : option string)
    (phoneNumber : option Z) (db : Db) :
  wf_store now db ->
  truthy_string email = true -> truthy_number phoneNumber = false ->
  exists v2,
    identifyCustomer no_faults now2 email phoneNumber
      (snd (identify_run now email phoneNumber db)) =
      (Ok v2, snd (identify_run now email phoneNumber db))
    /\ primaryContactId v2 = primaryContactId (fst (identify_run now email phoneNumber db))
    /\ emails v2 = emails (fst (identify_run now email phoneNumber db))
    /\ secondaryContactIds v2
       = secondaryContactIds (fst (identify_run now email phoneNumber db))
    /\ phoneNumbers v2 = [js_undefined].
Proof.
  intros Hwf Hemail Hphone.
  assert (Hacc : accepted email phoneNumber)
    by (unfold accepted; rewrite Hemail; reflexivity).
  rewrite identifyCustomer_no_faults.
  destruct (matched email phoneNumber (table db)) as [|p rest] eqn:E.
  - assert (R : identify_run now email phoneNumber db =
                (singleton_view (seq db) email phoneNumber,
                 mkDb (table db ++ [new_row now (seq db) (or_null email)
                                      (phone_param phoneNumber) None primary])
                      (seq db + 1)))
      by (unfold identify_run; rewrite E; reflexivity).
    rewrite R. cbn [fst snd].
    rewrite (identify_run_after_new_customer now now2 email phoneNumber db
               Hwf Hacc Hphone E).
    eexists. split; [reflexivity|]. cbn [fst].
    split; [reflexivity|]. split; [|split; [|apply consolidate_phoneNumbers]].
    + unfold consolidate, singleton_view. simpl.
      destruct email as [[|a s]|]; try discriminate. reflexivity.
    + unfold consolidate, singleton_view. simpl. rewrite Z.eqb_refl. reflexivity.
  - destruct (hasNewEmail email (p :: get_linked (id p) (table db))
              || hasNewPhone phoneNumber (p :: get_linked (id p) (table db))) eqn:N.
    + assert (R : identify_run now email phoneNumber db =
                  (consolidate p
                     ((p :: get_linked (id p) (table db))
                      ++ [new_row now (seq db) (or_null email)
                            (phone_param phoneNumber) (Some (id p)) secondary]),
                   mkDb (table db ++ [new_row now (seq db) (or_null email)
                                        (phone_param phoneNumber) (Some (id p)) secondary])
                        (seq db + 1)))
        by (unfold identify_run; rewrite E, N; reflexivity).
      rewrite R. cbn [fst snd].
      rewrite (identify_run_after_new_secondary now now2 email phoneNumber db p rest
                 Hwf Hacc Hphone E).
      eexists. split; [reflexivity|]. cbn [fst].
      repeat split. apply consolidate_phoneNumbers.
    + assert (R : forall t, identify_run t email phoneNumber db =
                    (consolidate p (p :: get_linked (id p) (table db)), db))
        by (intros t; unfold identify_run; rewrite E, N; reflexivity).
      rewrite (R now). cbn [fst snd]. rewrite (R now2).
      eexists. split; [reflexivity|]. cbn [fst].
      repeat split. apply consolidate_phoneNumbers.
Qed.

(** ** Further properties of a call *)

Lemma truthy_string_iff (email : option string) :
  truthy_string email = true <-> exists e, email = Some e /\ e <> "".
Proof.
  destruct email as [[|a s]|]; simpl; split; try discriminate.
  - intros (e & H & Hne). inversion H; subst. congruence.
  - intros _. eexists. split; [reflexivity | discriminate].
  - reflexivity.
  - intros (e & H & _). discriminate.
Qed.

Lemma truthy_number_iff (phoneNumber : option Z) :
  truthy_number phoneNumber = true <-> exists n, phoneNumber = Some n /\ n <> 0.
Proof.
  destruct phoneNumber as [[|n|n]|]; simpl; split; try discriminate.
  - intros (k & H & Hne). inversion H; subst. congruence.
  - intros _. eexists. split; [reflexivity | discriminate].
  - reflexivity.
  - intros _. eexists. split; [reflexivity | discriminate].
  - reflexivity.
  - intros (k & H & _). discriminate.
Qed.

(** X1: step 1 matches exactly the live rows whose email equals the non-empty
    email of the request or whose phone equals the decimal string of its
    phone; a phone of 0 is only looked up when the email is not empty, and an
    absent field matches nothing. *)
Theorem matched_exactly (email : option string) (phoneNumber : option Z)
    (rows : list Contact) (c : Contact) :
  In c (matched email phoneNumber rows) <->
  In c rows /\ deletedAt c = None
  /\ ((exists e, email = Some e /\ e <> "" /\ ContactRow.email c = Some e)
      \/ (exists n, phoneNumber = Some n
                    /\ (n <> 0 \/ exists e, email = Some e /\ e <> "")
                    /\ ContactRow.phoneNumber c = Some (toString n))).
Proof.
  unfold matched.
  destruct (truthy_string email || truthy_number phoneNumber) eqn:Hacc.
  - rewrite search_In. apply orb_true_iff in Hacc.
    split.
    + intros (Hin & Hdel & Hm). split; [exact Hin|]. split; [exact Hdel|].
      destruct Hm as [Hm | Hm]; apply sql_eq_true in Hm; destruct Hm as (s & Hc & Hp).
      * left. unfold or_null in Hp.
        destruct (truthy_string email) eqn:T; [|discriminate].
        apply truthy_string_iff in T. destruct T as (e & -> & Hne).
        inversion Hp; subst s. exists e. auto.
      * right. apply phone_param_inv in Hp. destruct Hp as (n & -> & ->).
        exists n. split; [reflexivity|]. split; [|exact Hc].
        destruct Hacc as [T | T].
        -- right. apply truthy_string_iff. exact T.
        -- left. apply truthy_number_iff in T. destruct T as (k & Hk & Hne).
           inversion Hk; subst. exact Hne.
    + intros (Hin & Hdel & Hm). split; [exact Hin|]. split; [exact Hdel|].
      destruct Hm as [(e & -> & Hne & Hc) | (n & -> & _ & Hc)].
      * left. apply sql_eq_true. exists e. split; [exact Hc|].
        unfold or_null.
        rewrite (proj2 (truthy_string_iff (Some e)) (ex_intro _ e (conj eq_refl Hne))).
        reflexivity.
      * right. apply sql_eq_true. exists (toString n).
        split; [exact Hc | apply phone_param_some].
  - apply orb_false_iff in Hacc. destruct Hacc as [Te Tp].
    split; [intros []|].
    intros (_ & _ & [(e & He & Hne & _) | (n & Hn & Hor & _)]).
    + rewrite (proj2 (truthy_string_iff email) (ex_intro _ e (conj He Hne))) in Te.
      discriminate.
    + destruct Hor as [Hne | Hex].
      * rewrite (proj2 (truthy_number_iff phoneNumber) (ex_intro _ n (conj Hn Hne))) in Tp.
        discriminate.
      * rewrite (proj2 (truthy_string_iff email) Hex) in Te. discriminate.
Qed.

Lemma strict_eq_true (col : option string) (s : string) :
  strict_eq col (Some s) = true <-> col = Some s.
Proof.
  destruct col as [x|]; simpl; split; try discriminate.
  - intros E. apply String.eqb_eq in E. congruence.
  - intros E. inversion E. apply String.eqb_refl.
Qed.

Lemma existsb_strict_eq_false (f : Contact -> option string) (s : string)
    (cs : list Contact) :
  existsb (fun c => strict_eq (f c) (Some s)) cs = false <->
  forall c, In c cs -> f c <> Some s.
Proof.
  split.
  - intros H c Hc E.
    assert (Ht : existsb (fun c => strict_eq (f c) (Some s)) cs = true).
    { apply existsb_exists. exists c. split; [exact Hc | apply strict_eq_true, E]. }
    congruence.
  - intros H. destruct (existsb _ cs) eqn:E; [|reflexivity].
    apply existsb_exists in E. destruct E as (c & Hc & Hs).
    apply strict_eq_true in Hs. exfalso. exact (H c Hc Hs).
Qed.

(** Step 4 in words. *)
Lemma hasNew_iff (email : option string) (phoneNumber : option Z) (cs : list Contact) :
  hasNewEmail email cs || hasNewPhone phoneNumber cs = true <->
  brings_new_information email phoneNumber cs.
Proof.
  unfold brings_new_information.
  rewrite orb_true_iff. split.
  - intros [H | H].
    + left. unfold hasNewEmail in H.
      apply andb_true_iff in H. destruct H as [T H].
      apply negb_true_iff in H. apply truthy_string_iff in T.
      destruct T as (e & -> & Hne). exists e. repeat split; try assumption.
      apply existsb_strict_eq_false. exact H.
    + right. unfold hasNewPhone in H.
      apply andb_true_iff in H. destruct H as [T _].
      apply truthy_number_iff. exact T.
  - intros [(e & -> & Hne & H) | (n & -> & Hne)].
    + left. unfold hasNewEmail. apply andb_true_iff. split.
      * apply truthy_string_iff. exists e. auto.
      * apply negb_true_iff, existsb_strict_eq_false. exact H.
    + right. apply hasNewPhone_truthy. exact Hne.
Qed.

Lemma new_row_is_inserted_row (now : Z) (email : option string)
    (phoneNumber : option Z) (db : Db) (link : option Z) (prec : LinkPrecedence) :
  inserted_row now email phoneNumber db
    (new_row now (seq db) (or_null email) (phone_param phoneNumber) link prec).
Proof.
  unfold inserted_row. simpl. repeat split.
  destruct phoneNumber as [n|]; [apply phone_param_some | reflexivity].
Qed.

(** X3: a call that returns has appended a primary without link when nothing
    matched; otherwise it reports the oldest matched contact and has appended
    one secondary linked to it exactly when the request carries a non-empty
    email that the working set does not have, or any phone other than 0; it
    has changed nothing else. *)
Theorem call_has_effect (faults : nat -> bool) (now : Z) (email : option string)
    (phoneNumber : option Z) (db db' : Db) (v : IdentifyResponse) :
  identifyCustomer faults now email phoneNumber db = (Ok v, db') ->
  call_effect now email phoneNumber db v db'.
Proof.
  intros H. apply identifyCustomer_ok in H.
  unfold call_effect. unfold identify_run in H.
  destruct (matched email phoneNumber (table db)) as [|p rest].
  - inversion H; subst v db'; clear H. eexists.
    split; [reflexivity|]. split; [apply new_row_is_inserted_row|].
    repeat split.
  - destruct (hasNewEmail email (p :: get_linked (id p) (table db))
              || hasNewPhone phoneNumber (p :: get_linked (id p) (table db))) eqn:N;
      inversion H; subst v db'; clear H; (split; [reflexivity|]).
    + left. split; [apply hasNew_iff, N|].
      eexists. split; [reflexivity|].
      split; [apply new_row_is_inserted_row|]. split; reflexivity.
    + right. split; [|reflexivity].
      intros Hb. apply hasNew_iff in Hb. congruence.
Qed.

Lemma call_has_effect_witness :
  identifyCustomer no_faults 20 (Some mcfly) (Some 123456) one_primary =
    (Ok (mkView 1 [lorraine; mcfly] [js_undefined] [2]), primary_and_secondary)
  /\ call_effect 20 (Some mcfly) (Some 123456) one_primary
       (mkView 1 [lorraine; mcfly] [js_undefined] [2]) primary_and_secondary.
Proof.
  assert (Hrun : identifyCustomer no_faults 20 (Some mcfly) (Some 123456) one_primary =
                   (Ok (mkView 1 [lorraine; mcfly] [js_undefined] [2]), primary_and_secondary))
    by (vm_compute; reflexivity).
  split; [exact Hrun|].
  exact (call_has_effect no_faults 20 (Some mcfly) (Some 123456) one_primary
           primary_and_secondary (mkView 1 [lorraine; mcfly] [js_undefined] [2]) Hrun).
Defined.

Lemma matched_ascending (email : option string) (phoneNumber : option Z)
    (rows : list Contact) :
  ascending (matched email phoneNumber rows).
Proof.
  unfold matched, search.
  destruct (truthy_string email || truthy_number phoneNumber).
  - apply order_by_createdAt_ascending.
  - constructor.
Qed.

(** X2: when something matches, the contact a call reports as primary is a
    matched contact with the smallest [createdAt] among the matched ones,
    whether it is a primary or a secondary. *)
Theorem oldest_match_is_reported (faults : nat -> bool) (now : Z)
    (email : option string) (phoneNumber : option Z) (db db' : Db)
    (v : IdentifyResponse) :
  identifyCustomer faults now email phoneNumber db = (Ok v, db') ->
  matched email phoneNumber (table db) <> [] ->
  reports_oldest_match email phoneNumber (table db) v.
Proof.
  intros H Hne. apply identifyCustomer_ok in H.
  unfold reports_oldest_match.
  pose proof (matched_ascending email phoneNumber (table db)) as Hs.
  destruct (matched email phoneNumber (table db)) as [|p rest] eqn:E; [congruence|].
  exists p. split; [left; reflexivity|]. split.
  - rewrite <- (identify_run_matched now email phoneNumber db p rest E), H. reflexivity.
  - intros c [<- | Hc]; [lia|].
    inversion Hs as [|? ? _ Hall]; subst.
    rewrite Forall_forall in Hall. exact (Hall c Hc).
Qed.

Lemma oldest_match_is_reported_witness :
  identifyCustomer no_faults 30 (Some lorraine) (Some 717171) two_primaries =
    (Ok (mkView 1 [lorraine] [js_undefined] [3]),
     mkDb (table two_primaries ++ [row 3 lorraine "717171" (Some 1) secondary 30]) 4)
  /\ matched (Some lorraine) (Some 717171) (table two_primaries) <> []
  /\ reports_oldest_match (Some lorraine) (Some 717171) (table two_primaries)
       (mkView 1 [lorraine] [js_undefined] [3]).
Proof.
  assert (Hrun : identifyCustomer no_faults 30 (Some lorraine) (Some 717171)
                   two_primaries =
                   (Ok (mkView 1 [lorraine] [js_undefined] [3]),
                    mkDb (table two_primaries
                          ++ [row 3 lorraine "717171" (Some 1) secondary 30]) 4))
    by (vm_compute; reflexivity).
  assert (Hne : matched (Some lorraine) (Some 717171) (table two_primaries) <> [])
    by (vm_compute; discriminate).
  split; [exact Hrun|]. split; [exact Hne|].
  exact (oldest_match_is_reported no_faults 30 (Some lorraine) (Some 717171)
           two_primaries _ (mkView 1 [lorraine] [js_undefined] [3]) Hrun Hne).
Defined.

(** ** What a response contains *)

Lemma working_rows_are_stored (rows : list Contact) (p c : Contact) :
  In p rows -> deletedAt p = None ->
  In c (p :: get_linked (id p) rows) ->
  In c rows /\ deletedAt c = None /\ (c = p \/ linkedId c = Some (id p)).
Proof.
  intros Hin Hdel [<- | Hc].
  - auto.
  - apply get_linked_In in Hc. tauto.
Qed.

Lemma consolidate_lists_no_phone (p : Contact) (cs : list Contact) (x : string) :
  ~ In (js_string x) (phoneNumbers (consolidate p cs)).
Proof.
  destruct cs as [|c rest].
  - intros [].
  - rewrite consolidate_phoneNumbers. intros [H | []]. discriminate H.
Qed.

(** The three lists of [consolidate] name contacts of the list it is given. *)
Lemma consolidate_sound (rows : list Contact) (p : Contact) (cs : list Contact) :
  In p rows -> deletedAt p = None ->
  (forall c, In c cs ->
     In c rows /\ deletedAt c = None /\ (c = p \/ linkedId c = Some (id p))) ->
  view_is_sound rows (consolidate p cs).
Proof.
  intros Hin Hdel Hcs. exists p. simpl.
  split; [exact Hin|]. split; [reflexivity|]. split; [exact Hdel|].
  split; [|split].
  - intros i Hi. apply in_map_iff in Hi. destruct Hi as (c & <- & Hc).
    apply filter_In in Hc. destruct Hc as [Hc Hne].
    apply negb_true_iff, Z.eqb_neq in Hne.
    destruct (Hcs c Hc) as (H1 & H2 & [-> | H3]); [congruence|].
    exists c. auto.
  - intros x Hx. apply dedup_In, non_null_In in Hx.
    destruct Hx as (c & Hc & Hf). destruct (Hcs c Hc) as (H1 & H2 & H3).
    exists c. auto.
  - intros x Hx. exfalso. exact (consolidate_lists_no_phone p cs x Hx).
Qed.

(** X4: everything a response names is in the store the call leaves: the
    reported primary is a live row, every secondary id belongs to another
    live row linked to it, and every email and every phone string listed is
    stored on the reported contact or on a live row linked to it. *)
Theorem response_names_stored_contacts (faults : nat -> bool) (now : Z)
    (email : option string) (phoneNumber : option Z) (db db' : Db)
    (v : IdentifyResponse) :
  identifyCustomer faults now email phoneNumber db = (Ok v, db') ->
  view_is_sound (table db') v.
Proof.
  intros H. apply identifyCustomer_ok in H. unfold identify_run in H.
  destruct (matched email phoneNumber (table db)) as [|p rest] eqn:E.
  - inversion H; subst v db'; clear H. cbn [table].
    exists (new_row now (seq db) (or_null email) (phone_param phoneNumber) None primary).
    split; [apply in_or_app; right; left; reflexivity|].
    split; [reflexivity|]. split; [reflexivity|].
    split; [intros i []|]. split.
    + intros x Hx. eexists. split; [apply in_or_app; right; left; reflexivity|].
      split; [|split; [reflexivity | left; reflexivity]].
      simpl in *. destruct email as [[|a s]|]; simpl in Hx; try contradiction.
      destruct Hx as [<- | []]. reflexivity.
    + intros x Hx. eexists. split; [apply in_or_app; right; left; reflexivity|].
      split; [|split; [reflexivity | left; reflexivity]].
      simpl in *. destruct phoneNumber as [n|]; [|contradiction].
      rewrite phone_param_some.
      destruct n; simpl in Hx; try contradiction;
        destruct Hx as [Hx | []]; inversion Hx; reflexivity.
  - destruct (matched_head_In _ _ _ _ _ E) as [Hin Hdel].
    destruct (hasNewEmail email _ || hasNewPhone phoneNumber _);
      inversion H; subst v db'; clear H; cbn [table].
    + apply consolidate_sound; [apply in_or_app; left; exact Hin | exact Hdel |].
      intros c Hc.
      assert (Hc' : In c (p :: get_linked (id p) (table db))
                    \/ c = new_row now (seq db) (or_null email)
                              (phone_param phoneNumber) (Some (id p)) secondary).
      { destruct Hc as [<- | Hc]; [left; left; reflexivity|].
        apply in_app_or in Hc. destruct Hc as [Hc | [<- | []]];
          [left; right; exact Hc | right; reflexivity]. }
      destruct Hc' as [Hc' | ->].
      * destruct (working_rows_are_stored _ _ _ Hin Hdel Hc') as (H1 & H2 & H3).
        split; [apply in_or_app; left; exact H1 | auto].
      * split; [apply in_or_app; right; left; reflexivity|].
        split; [reflexivity | right; reflexivity].
    + apply consolidate_sound; [exact Hin | exact Hdel |].
      intros c Hc. exact (working_rows_are_stored _ _ _ Hin Hdel Hc).
Qed.

Lemma response_names_stored_contacts_witness :
  identifyCustomer no_faults 20 (Some mcfly) (Some 123456) one_primary =
    (Ok (mkView 1 [lorraine; mcfly] [js_undefined] [2]), primary_and_secondary)
  /\ view_is_sound (table primary_and_secondary)
       (mkView 1 [lorraine; mcfly] [js_undefined] [2]).
Proof.
  assert (Hrun : identifyCustomer no_faults 20 (Some mcfly) (Some 123456) one_primary =
                   (Ok (mkView 1 [lorraine; mcfly] [js_undefined] [2]), primary_and_secondary))
    by (vm_compute; reflexivity).
  split; [exact Hrun|].
  exact (response_names_stored_contacts no_faults 20 (Some mcfly) (Some 123456)
           one_primary primary_and_secondary
           (mkView 1 [lorraine; mcfly] [js_undefined] [2]) Hrun).
Defined.

Lemma known_value_is_listed (f : Contact -> option string) (s : string)
    (cs : list Contact) :
  existsb (fun c => strict_eq (f c) (Some s)) cs = true ->
  In s (dedup (non_null f cs)).
Proof.
  intros H. apply existsb_exists in H. destruct H as (c & Hc & Hs).
  apply strict_eq_true in Hs.
  apply dedup_In, non_null_In. exists c. auto.
Qed.

(** X5: the response of a call that returns lists the non-empty email of the
    request among [emails].  Its [phoneNumbers] is the decimal string of the
    request's phone alone when nothing matched (and the phone is not 0), and
    the one entry [undefined] whenever something matched. *)
Theorem response_lists_the_request (faults : nat -> bool) (now : Z)
    (email : option string) (phoneNumber : option Z) (db db' : Db)
    (v : IdentifyResponse) :
  identifyCustomer faults now email phoneNumber db = (Ok v, db') ->
  request_is_in_view email phoneNumber (table db) v.
Proof.
  intros H. apply identifyCustomer_ok in H. unfold identify_run in H.
  unfold request_is_in_view.
  assert (He : forall e, email = Some e -> e <> "" ->
                 truthy_string email = true /\ or_null email = Some e).
  { intros e -> Hne. unfold or_null.
    rewrite (proj2 (truthy_string_iff (Some e)) (ex_intro _ e (conj eq_refl Hne))).
    auto. }
  destruct (matched email phoneNumber (table db)) as [|p rest].
  - inversion H; subst v db'; clear H. split; [|split]; simpl.
    + intros e Hemail Hne. destruct (He e Hemail Hne) as [T _].
      subst email. rewrite T. left. reflexivity.
    + intros _ n -> Hne. destruct n; [congruence | reflexivity | reflexivity].
    + congruence.
  - assert (Hphones : phoneNumbers v = [js_undefined]).
    { destruct (hasNewEmail email _ || hasNewPhone phoneNumber _);
        inversion H; subst v db'; apply consolidate_phoneNumbers. }
    split; [|split; [discriminate | intros _; exact Hphones]].
    destruct (hasNewEmail email (p :: get_linked (id p) (table db))
              || hasNewPhone phoneNumber (p :: get_linked (id p) (table db))) eqn:N;
      inversion H; subst v db'; clear H;
      unfold consolidate; cbn [emails].
    + intros e Hemail Hne. destruct (He e Hemail Hne) as [_ Ho].
      apply dedup_In, non_null_In. eexists.
      split; [right; apply in_or_app; right; left; reflexivity | exact Ho].
    + intros e Hemail Hne. destruct (He e Hemail Hne) as [T _].
      apply orb_false_iff in N. destruct N as [N _].
      unfold hasNewEmail in N. rewrite T in N. simpl in N.
      apply negb_false_iff in N. subst email.
      apply (known_value_is_listed ContactRow.email). exact N.
Qed.

Lemma response_lists_the_request_witness :
  identifyCustomer no_faults 20 (Some mcfly) (Some 123456) one_primary =
    (Ok (mkView 1 [lorraine; mcfly] [js_undefined] [2]), primary_and_secondary)
  /\ request_is_in_view (Some mcfly) (Some 123456) (table one_primary)
       (mkView 1 [lorraine; mcfly] [js_undefined] [2]).
Proof.
  assert (Hrun : identifyCustomer no_faults 20 (Some mcfly) (Some 123456) one_primary =
                   (Ok (mkView 1 [lorraine; mcfly] [js_undefined] [2]),
                    primary_and_secondary))
    by (vm_compute; reflexivity).
  split; [exact Hrun|].
  exact (response_lists_the_request no_faults 20 (Some mcfly) (Some 123456)
           one_primary primary_and_secondary
           (mkView 1 [lorraine; mcfly] [js_undefined] [2]) Hrun).
Defined.

(** X6: in the response of a call that returns no email and no phone is
    listed twice, and the contact reported as primary is not listed among the
    secondaries. *)
Theorem response_has_no_repetition (faults : nat -> bool) (now : Z)
    (email : option string) (phoneNumber : option Z) (db db' : Db)
    (v : IdentifyResponse) :
  identifyCustomer faults now email phoneNumber db = (Ok v, db') ->
  view_has_no_repetition v.
Proof.
  intros H. apply identifyCustomer_ok in H. unfold identify_run in H.
  assert (Hc : forall p cs, view_has_no_repetition (consolidate p cs)).
  { intros p cs. unfold view_has_no_repetition.
    split; [apply dedup_NoDup|]. split.
    { destruct cs as [|c rest]; [constructor|].
      rewrite consolidate_phoneNumbers. constructor; [intros [] | constructor]. }
    simpl. intros Hi. apply in_map_iff in Hi. destruct Hi as (c & Hid & Hf).
    apply filter_In in Hf. destruct Hf as [_ Hne].
    apply negb_true_iff, Z.eqb_neq in Hne. congruence. }
  destruct (matched email phoneNumber (table db)) as [|p rest].
  - inversion H; subst v db'; clear H.
    unfold view_has_no_repetition, singleton_view. simpl.
    split; [|split; [|intros []]].
    + destruct email as [e|]; [destruct (truthy_string (Some e))|];
        repeat constructor; intros [].
    + destruct phoneNumber as [n|]; [destruct (truthy_number (Some n))|];
        repeat constructor; intros [].
  - destruct (hasNewEmail email _ || hasNewPhone phoneNumber _);
      inversion H; subst v db'; apply Hc.
Qed.

Lemma response_has_no_repetition_witness :
  identifyCustomer no_faults 30 (Some lorraine) (Some 717171) two_primaries =
    (Ok (mkView 1 [lorraine] [js_undefined] [3]),
     mkDb (table two_primaries ++ [row 3 lorraine "717171" (Some 1) secondary 30]) 4)
  /\ view_has_no_repetition (mkView 1 [lorraine] [js_undefined] [3]).
Proof.
  assert (Hrun : identifyCustomer no_faults 30 (Some lorraine) (Some 717171)
                   two_primaries =
                   (Ok (mkView 1 [lorraine] [js_undefined] [3]),
                    mkDb (table two_primaries
                          ++ [row 3 lorraine "717171" (Some 1) secondary 30]) 4))
    by (vm_compute; reflexivity).
  split; [exact Hrun|].
  exact (response_has_no_repetition no_faults 30 (Some lorraine) (Some 717171)
           two_primaries _ (mkView 1 [lorraine] [js_undefined] [3]) Hrun).
Defined.

(** ** Soft-deleted rows *)

Lemma filter_live_rows (f : Contact -> bool) (rows : list Contact) :
  (forall c, f c = true -> deletedAt c = None) ->
  filter f (live_rows rows) = filter f rows.
Proof.
  intros Hf. unfold live_rows. induction rows as [|c rest IH]; simpl; [reflexivity|].
  destruct (is_null (deletedAt c)) eqn:L; simpl.
  - rewrite IH. reflexivity.
  - rewrite IH. destruct (f c) eqn:F; [|reflexivity].
    apply Hf, is_null_true in F. congruence.
Qed.

Lemma matched_live_rows (email : option string) (phoneNumber : option Z)
    (rows : list Contact) :
  matched email phoneNumber (live_rows rows) = matched email phoneNumber rows.
Proof.
  unfold matched, search. rewrite filter_live_rows; [reflexivity|].
  intros c H. unfold search_where in H.
  apply andb_true_iff in H. apply is_null_true. tauto.
Qed.

Lemma get_linked_live_rows (pid : Z) (rows : list Contact) :
  get_linked pid (live_rows rows) = get_linked pid rows.
Proof.
  unfold get_linked. rewrite filter_live_rows; [reflexivity|].
  intros c H. apply linked_where_true in H. tauto.
Qed.

(** X7: soft-deleted rows play no part in a call: on the store without them
    the call gives the same response and makes the same insert. *)
Theorem deleted_rows_are_invisible (now : Z) (email : option string)
    (phoneNumber : option Z) (db : Db) :
  fst (identifyCustomer no_faults now email phoneNumber
         (mkDb (live_rows (table db)) (seq db)))
    = fst (identifyCustomer no_faults now email phoneNumber db)
  /\ table (snd (identifyCustomer no_faults now email phoneNumber
                   (mkDb (live_rows (table db)) (seq db))))
     = live_rows (table (snd (identifyCustomer no_faults now email phoneNumber db))).
Proof.
  rewrite !identifyCustomer_no_faults. cbn [fst snd].
  unfold identify_run. cbn [table seq].
  rewrite matched_live_rows.
  destruct (matched email phoneNumber (table db)) as [|p rest].
  - cbn [fst snd table]. split; [reflexivity|].
    unfold live_rows. rewrite filter_app. reflexivity.
  - rewrite get_linked_live_rows.
    destruct (hasNewEmail email _ || hasNewPhone phoneNumber _);
      cbn [fst snd table]; split; try reflexivity.
    unfold live_rows. rewrite filter_app. reflexivity.
Qed.

(** ** Invariants *)


(** X9: a call whose oldest matched contact is a primary, or that matches
    nothing, keeps the store a depth-one forest, whatever the store answers. *)
Theorem forest_is_kept_under_a_primary (faults : nat -> bool) (now : Z)
    (email : option string) (phoneNumber : option Z) (db : Db) :
  forest_invariant (table db) ->
  oldest_match_is_primary email phoneNumber (table db) ->
  forest_invariant (table (snd (identifyCustomer faults now email phoneNumber db))).
Proof.
  intros Hf Hprim.
  assert (Hgrow : forall n,
            (linkPrecedence n = secondary ->
             exists p, In p (table db) /\ linkedId n = Some (id p)
                       /\ linkPrecedence p = primary) ->
            forest_invariant (table db ++ [n])).
  { intros n Hn c Hc Hdel Hsec. apply in_app_or in Hc.
    destruct Hc as [Hc | [<- | []]].
    - destruct (Hf c Hc Hdel Hsec) as (p & Hp & Hl & Hpp).
      exists p. split; [apply in_or_app; left; exact Hp | auto].
    - destruct (Hn Hsec) as (p & Hp & Hl & Hpp).
      exists p. split; [apply in_or_app; left; exact Hp | auto]. }
  destruct (identifyCustomer_cases faults now email phoneNumber db)
    as [(k & _ & Ht & _) | Heq].
  - rewrite Ht. exact Hf.
  - rewrite Heq, identifyCustomer_no_faults. cbn [snd].
    unfold identify_run, oldest_match_is_primary in *.
    destruct (matched email phoneNumber (table db)) as [|p rest] eqn:E.
    + cbn [snd table]. apply Hgrow. discriminate.
    + destruct (hasNewEmail email _ || hasNewPhone phoneNumber _); cbn [snd table].
      * apply Hgrow. intros _. exists p.
        destruct (matched_head_In _ _ _ _ _ E) as [Hin _]. auto.
      * exact Hf.
Qed.

Lemma forest_is_kept_under_a_primary_witness :
  forest_invariant (table one_primary)
  /\ oldest_match_is_primary (Some mcfly) (Some 123456) (table one_primary)
  /\ forest_invariant
       (table (snd (identifyCustomer no_faults 20 (Some mcfly) (Some 123456)
                      one_primary))).
Proof.
  assert (Hf : forest_invariant (table one_primary)).
  { change (table one_primary) with [row 1 lorraine "123456" None primary 10].
    intros c [<- | []] _ Hs. discriminate Hs. }
  assert (Hprim : oldest_match_is_primary (Some mcfly) (Some 123456) (table one_primary))
    by (vm_compute; reflexivity).
  split; [exact Hf|]. split; [exact Hprim|].
  exact (forest_is_kept_under_a_primary no_faults 20 (Some mcfly) (Some 123456)
           one_primary Hf Hprim).
Defined.

(** X15: ids stay unique: in a well-formed store without two rows of the same
    id, no call, failed or not, produces two rows of the same id. *)
Theorem ids_stay_unique (faults : nat -> bool) (now now' : Z)
    (email : option string) (phoneNumber : option Z) (db : Db) :
  wf_store now db ->
  NoDup (map id (table db)) ->
  NoDup (map id (table (snd (identifyCustomer faults now' email phoneNumber db)))).
Proof.
  intros Hwf Hnd.
  destruct (identifyCustomer_cases faults now' email phoneNumber db)
    as [(k & _ & Ht & _) | Heq].
  - rewrite Ht. exact Hnd.
  - rewrite Heq, identifyCustomer_no_faults. cbn [snd].
    destruct (identify_run_table now' email phoneNumber db)
      as [E | (link & prec & E)]; rewrite E; [exact Hnd|].
    cbn [table]. rewrite map_app. simpl.
    apply Permutation_NoDup with (l := seq db :: map id (table db)).
    + apply Permutation_cons_append.
    + constructor; [|exact Hnd].
      intros Hin. apply in_map_iff in Hin. destruct Hin as (c & Hid & Hc).
      unfold wf_store in Hwf. rewrite Forall_forall in Hwf.
      destruct (Hwf c Hc) as (H1 & _). lia.
Qed.

Lemma ids_stay_unique_witness :
  wf_store 10 one_primary
  /\ NoDup (map id (table one_primary))
  /\ NoDup (map id (table (snd (identifyCustomer no_faults 20 (Some mcfly)
                                  (Some 123456) one_primary)))).
Proof.
  assert (Hwf : wf_store 10 one_primary).
  { unfold wf_store.
    change one_primary with (mkDb [row 1 lorraine "123456" None primary 10] 2).
    simpl. constructor; [|constructor].
    simpl. split; [lia|]. split; [lia | discriminate]. }
  assert (Hnd : NoDup (map id (table one_primary))).
  { change (table one_primary) with [row 1 lorraine "123456" None primary 10].
    simpl. constructor; [intros [] | constructor]. }
  split; [exact Hwf|]. split; [exact Hnd|].
  exact (ids_stay_unique no_faults 10 20 (Some mcfly) (Some 123456) one_primary
           Hwf Hnd).
Defined.

(** ** Asking again *)

(** X10: after a call that returned, in a well-formed store, for a request
    with a non-empty email and no phone (or the phone 0), the same request
    once more returns without writing and names the same contact, the same
    emails and the same secondaries; its phone list is the one entry
    [undefined]. *)
Theorem repeated_request_writes_nothing (faults : nat -> bool) (now now2 : Z)
    (email : option string) (phoneNumber : option Z) (db db1 : Db)
    (v1 : IdentifyResponse) :
  wf_store now db ->
  (exists e, email = Some e /\ e <> "") ->
  phoneNumber = None \/ phoneNumber = Some 0 ->
  identifyCustomer faults now email phoneNumber db = (Ok v1, db1) ->
  exists v2,
    identifyCustomer no_faults now2 email phoneNumber db1 = (Ok v2, db1)
    /\ primaryContactId v2 = primaryContactId v1
    /\ emails v2 = emails v1
    /\ secondaryContactIds v2 = secondaryContactIds v1
    /\ phoneNumbers v2 = [js_undefined].
Proof.
  intros Hwf Hemail Hphone H. apply identifyCustomer_ok in H.
  apply truthy_string_iff in Hemail.
  assert (Hp : truthy_number phoneNumber = false)
    by (destruct Hphone as [-> | ->]; reflexivity).
  destruct (second_identical_call_is_a_pure_read now now2 email phoneNumber db
              Hwf Hemail Hp) as (v2 & Hrun & Hsame).
  rewrite H in Hrun, Hsame. cbn [fst snd] in Hrun, Hsame.
  exists v2. auto.
Qed.

Lemma repeated_request_writes_nothing_witness :
  wf_store 20 one_primary
  /\ (exists e, Some mcfly = Some e /\ e <> "")
  /\ (@None Z = None \/ @None Z = Some 0)
  /\ identifyCustomer no_faults 20 (Some mcfly) None one_primary =
       (Ok (mkView 2 [mcfly] [] []),
        mkDb [row 1 lorraine "123456" None primary 10;
              mkContact 2 None (Some mcfly) None primary 20 20 None] 3)
  /\ exists v2,
       identifyCustomer no_faults 30 (Some mcfly) None
         (mkDb [row 1 lorraine "123456" None primary 10;
                mkContact 2 None (Some mcfly) None primary 20 20 None] 3) =
         (Ok v2,
          mkDb [row 1 lorraine "123456" None primary 10;
                mkContact 2 None (Some mcfly) None primary 20 20 None] 3)
       /\ primaryContactId v2 = primaryContactId (mkView 2 [mcfly] [] [])
       /\ emails v2 = emails (mkView 2 [mcfly] [] [])
       /\ secondaryContactIds v2 = secondaryContactIds (mkView 2 [mcfly] [] [])
       /\ phoneNumbers v2 = [js_undefined].
Proof.
  assert (Hwf : wf_store 20 one_primary).
  { unfold wf_store.
    change one_primary with (mkDb [row 1 lorraine "123456" None primary 10] 2).
    simpl. constructor; [|constructor].
    simpl. split; [lia|]. split; [lia | discriminate]. }
  assert (Hemail : exists e, Some mcfly = Some e /\ e <> "")
    by (exists mcfly; split; [reflexivity | discriminate]).
  assert (Hphone : @None Z = None \/ @None Z = Some 0) by (left; reflexivity).
  assert (Hrun : identifyCustomer no_faults 20 (Some mcfly) None one_primary =
                   (Ok (mkView 2 [mcfly] [] []),
                    mkDb [row 1 lorraine "123456" None primary 10;
                          mkContact 2 None (Some mcfly) None primary 20 20 None] 3))
    by (vm_compute; reflexivity).
  split; [exact Hwf|]. split; [exact Hemail|]. split; [exact Hphone|].
  split; [exact Hrun|].
  exact (repeated_request_writes_nothing no_faults 20 30 (Some mcfly) None
           one_primary _ (mkView 2 [mcfly] [] []) Hwf Hemail Hphone Hrun).
Defined.

(** A request with the email of the cluster alone. *)
Lemma nothing_new_is_a_pure_read_witness :
  matched (Some lorraine) None (table primary_and_secondary) =
    row 1 lorraine "123456" None primary 10 :: []
  /\ (forall e, Some lorraine = Some e ->
        In e (non_null ContactRow.email
                (row 1 lorraine "123456" None primary 10
                 :: get_linked (id (row 1 lorraine "123456" None primary 10))
                      (table primary_and_secondary))))
  /\ (@None Z = None \/ @None Z = Some 0)
  /\ identifyCustomer no_faults 30 (Some lorraine) None primary_and_secondary =
       (Ok (consolidate (row 1 lorraine "123456" None primary 10)
              (row 1 lorraine "123456" None primary 10
               :: get_linked (id (row 1 lorraine "123456" None primary 10))
                    (table primary_and_secondary))),
        primary_and_secondary).
Proof.
  assert (Hm : matched (Some lorraine) None (table primary_and_secondary) =
               row 1 lorraine "123456" None primary 10 :: [])
    by (vm_compute; reflexivity).
  assert (He : forall e, Some lorraine = Some e ->
            In e (non_null ContactRow.email
                    (row 1 lorraine "123456" None primary 10
                     :: get_linked (id (row 1 lorraine "123456" None primary 10))
                          (table primary_and_secondary))))
    by (intros e He; inversion He; left; reflexivity).
  assert (Hp : @None Z = None \/ @None Z = Some 0) by (left; reflexivity).
  split; [exact Hm|]. split; [exact He|]. split; [exact Hp|].
  exact (nothing_new_is_a_pure_read 30 (Some lorraine) None primary_and_secondary
           _ _ Hm He Hp).
Defined.

(** ** Failures *)

(** The search of a call fails. *)
Lemma early_fault_throws_witness :
  (2 <= 3)%nat
  /\ third_fails 2 = true
  /\ exists e,
       fst (identifyCustomer third_fails 20 (Some mcfly) (Some 123456) one_primary)
       = Throw e.
Proof.
  assert (Hk : (2 <= 3)%nat) by lia.
  assert (Hf : third_fails 2 = true) by reflexivity.
  split; [exact Hk|]. split; [exact Hf|].
  exact (early_fault_throws third_fails 20 (Some mcfly) (Some 123456) one_primary
           2%nat Hk Hf).
Defined.

Lemma thrown_error_names_a_failed_statement (faults : nat -> bool) (now : Z)
    (email : option string) (phoneNumber : option Z) (db : Db) (k : nat) :
  fst (identifyCustomer faults now email phoneNumber db) = Throw k ->
  faults k = true.
Proof.
  destruct db as [rows s].
  unfold_call.
  repeat
    (simpl;
     match goal with
     | |- context [if faults ?j then _ else _] => destruct (faults j) eqn:?
     | |- context [if ?a || ?b then _ else _] => destruct (a || b)
     | |- context [match search ?a ?b ?c with _ => _ end] => destruct (search a b c)
     end);
    simpl; intros H; try discriminate H; inversion H; subst; assumption.
Qed.

(** X13: the handler answers 500 only when a statement sent to the store has
    failed: the error [identifyCustomer] throws is the error of a failed
    statement, so a store that answers every statement never leads to 500. *)
Theorem server_error_needs_a_failed_statement (faults : nat -> bool) (now : Z)
    (email : option string) (phoneNumber : option Z) (db : Db) :
  fst (post_identify faults now email phoneNumber db) = Http500 ->
  exists k, fst (identifyCustomer faults now email phoneNumber db) = Throw k
            /\ faults k = true.
Proof.
  unfold post_identify.
  destruct (negb (truthy_string email) && negb (truthy_number phoneNumber));
    [discriminate|].
  destruct (identifyCustomer faults now email phoneNumber db) as [[v | k] db'] eqn:E;
    [discriminate|].
  intros _. exists k. split; [reflexivity|].
  apply (thrown_error_names_a_failed_statement faults now email phoneNumber db).
  rewrite E. reflexivity.
Qed.

Lemma server_error_needs_a_failed_statement_witness :
  fst (post_identify third_fails 20 (Some mcfly) (Some 123456) one_primary) = Http500
  /\ exists k,
       fst (identifyCustomer third_fails 20 (Some mcfly) (Some 123456) one_primary)
       = Throw k
       /\ third_fails k = true.
Proof.
  assert (H : fst (post_identify third_fails 20 (Some mcfly) (Some 123456) one_primary)
              = Http500) by (vm_compute; reflexivity).
  split; [exact H|].
  exact (server_error_needs_a_failed_statement third_fails 20 (Some mcfly)
           (Some 123456) one_primary H).
Defined.

(** X14: the handler answers 400 exactly when the email is absent or empty
    and the phone is absent or 0; it then leaves the store alone, and in every
    other case its answer is 200 or 500. *)
Theorem bad_request_exactly_for_falsy_input (faults : nat -> bool) (now : Z)
    (email : option string) (phoneNumber : option Z) (db : Db) :
  (fst (post_identify faults now email phoneNumber db) = Http400 <->
   (email = None \/ email = Some "") /\ (phoneNumber = None \/ phoneNumber = Some 0))
  /\ ((email = None \/ email = Some "") /\ (phoneNumber = None \/ phoneNumber = Some 0)
      -> post_identify faults now email phoneNumber db = (Http400, db)).
Proof.
  assert (Hs : truthy_string email = false <-> email = None \/ email = Some "").
  { destruct email as [[|a s]|]; simpl; split; auto; try discriminate;
      intros [H | H]; discriminate H. }
  assert (Hn : truthy_number phoneNumber = false <->
               phoneNumber = None \/ phoneNumber = Some 0).
  { destruct phoneNumber as [[|n|n]|]; simpl; split; auto; try discriminate;
      intros [H | H]; discriminate H. }
  split; [split|].
  - unfold post_identify.
    destruct (truthy_string email) eqn:Te; destruct (truthy_number phoneNumber) eqn:Tn;
      simpl;
      try (destruct (identifyCustomer faults now email phoneNumber db) as [[v | k] db'];
           simpl; discriminate).
    intros _. split; [apply Hs | apply Hn]; reflexivity.
  - intros [He Hp]. apply Hs in He. apply Hn in Hp.
    rewrite (falsy_input_is_rejected faults now email phoneNumber db He Hp). reflexivity.
  - intros [He Hp]. apply Hs in He. apply Hn in Hp.
    apply falsy_input_is_rejected; assumption.
Qed.
